(** * HyperReplay: the ADL extractor and the real-time account reconstructor

    A shallow embedding of [scripts/replay_real_time_accounts.py] and of the
    record filter of [scripts/extract_full_12min_adl.py].

    Numbers are Python floats, that is IEEE 754 binary64: they are modelled by
    Rocq's primitive floats, whose operations are the same roundings.
    Timestamps are Python integers (milliseconds) and are modelled by [Z].
    The account map and the last-price table are dictionaries that are only
    read by key: they are [gmap]s.  The per-account position dictionary is
    iterated by the metrics loop, and a float sum depends on the order of its
    terms, so it is an insertion-ordered association list. *)

From Stdlib Require Import ZArith List String Ascii Bool Lia Sorted.
From Stdlib Require Import Floats.
From stdpp Require Import base gmap strings.

Local Open Scope string_scope.
Local Open Scope Z_scope.

(** ** Python floats *)

Module PyFloat.

(** [x == 0], [x > 0] and [x < 0] on floats are the IEEE comparisons. *)
Definition eq0 (x : float) : bool := PrimFloat.eqb x 0%float.
Definition gt0 (x : float) : bool := PrimFloat.ltb 0%float x.
Definition lt0 (x : float) : bool := PrimFloat.ltb x 0%float.

(** The exceptions the modelled statements can raise. *)
Inductive PyError : Type :=
| ZeroDivisionError
| TypeError
| KeyError.

(** A computation that returns or raises. *)
Inductive result (A : Type) : Type :=
| Ok (a : A)
| Raise (e : PyError).
Arguments Ok {A} a.
Arguments Raise {A} e.

Definition bind {A B : Type} (m : result A) (k : A -> result B) : result B :=
  match m with
  | Ok a => k a
  | Raise e => Raise e
  end.

(** [x / y] raises [ZeroDivisionError] when [y] is zero (of either sign)
    and is the IEEE quotient otherwise. *)
Definition truediv (x y : float) : result float :=
  if eq0 y then Raise ZeroDivisionError else Ok (PrimFloat.div x y).

End PyFloat.
Import PyFloat.

(** [result] is a monad: stdpp's [x ← m; k] sequences two computations and
    stops at the first one that raises. *)
#[global] Instance result_ret : MRet result := fun A a => Ok a.
#[global] Instance result_bind : MBind result := fun A B k m => bind m k.


(** ** Insertion-ordered dictionaries

    A Python [dict] keeps its keys in insertion order; assigning to a key that
    is present replaces the value in place, assigning to a new key appends. *)

Section Dict.
Context {V : Type}.

Fixpoint dict_get (k : string) (d : list (string * V)) : option V :=
  match d with
  | [] => None
  | (k', v) :: rest => if String.eqb k k' then Some v else dict_get k rest
  end.

Fixpoint dict_set (k : string) (v : V) (d : list (string * V)) : list (string * V) :=
  match d with
  | [] => [(k, v)]
  | (k', v') :: rest =>
      if String.eqb k k' then (k', v) :: rest else (k', v') :: dict_set k v rest
  end.

Definition dict_mem (k : string) (d : list (string * V)) : bool :=
  match dict_get k d with Some _ => true | None => false end.
End Dict.

(** ** Data model of the reconstructor *)

(** A position entry: the keys ['size'], ['entry_price'] and ['notional'].
    The entry price comes from the snapshot's JSON, where it can be [null]:
    the metrics loop tests [entry_price is None]. *)
Record Position : Type := {
  pos_size : float;
  entry_price : option float;
  notional : float
}.

(** An account: ['account_value'], ['positions'], ['snapshot_time']. *)
Record AccountState : Type := {
  account_value : float;
  positions : list (string * Position);
  snapshot_time : Z
}.

(** The fields of a fill event, as STEP 2 builds them from a block. *)
Record FillDetails : Type := {
  coin : string;
  price : float;
  fill_size : float;
  side : string;
  direction : string;
  closedPnl : float;
  fee : float;
  startPosition : float;
  (* the ['liquidatedUser'] of the fill's liquidation metadata, when present *)
  liquidation_data : option string
}.

(** The event's ['type'] and the fields that come with it. *)
Inductive EventBody : Type :=
| fill (d : FillDetails)
| funding (funding_coin : string) (funding_amount : float)
| deposit (amount : float)
| withdrawal (amount : float)
| transfer (amount : float).

Record Event : Type := {
  time : Z;
  user : string;
  body : EventBody
}.

(** One row of [adl_with_realtime]. *)
Record AdlRecord : Type := {
  r_user : string;
  r_coin : string;
  r_time : Z;
  adl_price : float;
  adl_size : float;
  adl_notional : float;
  closed_pnl : float;
  position_size : float;
  r_entry_price : float;
  account_value_realtime : float;
  total_unrealized_pnl : float;
  total_equity : float;
  is_negative_equity : bool;
  leverage_realtime : float;
  position_unrealized_pnl : float;
  pnl_percent : float;
  liquidated_user : option string
}.

(** ** STEP 2: the event list, sorted and cut to the analysis window *)

Definition SNAPSHOT_TIME : Z := 1760126694218.
Definition ADL_START_TIME : Z := 1760130900000.
Definition ADL_END_TIME : Z := 1760131620000.

(** [all_events.sort(key=lambda x: x['time'])]: Python's sort is stable, and
    every stable sort by the same key returns the same list; this one inserts
    each event before the first later event whose time is not smaller. *)
Fixpoint insert_by_time (e : Event) (sorted : list Event) : list Event :=
  match sorted with
  | [] => [e]
  | e' :: rest =>
      if time e <=? time e' then e :: e' :: rest else e' :: insert_by_time e rest
  end.

Fixpoint sort_by_time (evs : list Event) : list Event :=
  match evs with
  | [] => []
  | e :: rest => insert_by_time e (sort_by_time rest)
  end.

(** [SNAPSHOT_TIME <= e['time'] <= ADL_END_TIME] *)
Definition in_window (e : Event) : bool :=
  (SNAPSHOT_TIME <=? time e) && (time e <=? ADL_END_TIME).

Definition events_in_window (all_events : list Event) : list Event :=
  List.filter in_window (sort_by_time all_events).

(** ** STEP 3: the fold over the events *)

(** The two mutable tables of the fold: [working_states] and [last_prices]. *)
Record ReplayState : Type := {
  working_states : gmap string AccountState;
  last_prices : gmap string float
}.

Definition new_account (t : Z) : AccountState :=
  {| account_value := 0%float; positions := []; snapshot_time := t |}.

(** [if user not in working_states: working_states[user] = {...}] *)
Definition ensure_user (ws : gmap string AccountState) (ev : Event)
  : gmap string AccountState :=
  match ws !! user ev with
  | Some _ => ws
  | None => <[user ev := new_account (time ev)]> ws
  end.

(** [working_states[user]['account_value'] += x] *)
Definition add_value (x : float) (st : AccountState) : AccountState :=
  {| account_value := PrimFloat.add (account_value st) x;
     positions := positions st;
     snapshot_time := snapshot_time st |}.

(** [working_states[user]['account_value'] -= x] *)
Definition sub_value (x : float) (st : AccountState) : AccountState :=
  {| account_value := PrimFloat.sub (account_value st) x;
     positions := positions st;
     snapshot_time := snapshot_time st |}.

(** The position update of a fill: create the entry when the coin is new,
    then overwrite its size with the fill's [startPosition]. *)
Definition new_position (d : FillDetails) : Position :=
  {| pos_size := 0%float; entry_price := Some (price d); notional := 0%float |}.

Definition set_size (new_size : float) (p : Position) : Position :=
  {| pos_size := new_size; entry_price := entry_price p; notional := notional p |}.

Definition update_position (d : FillDetails) (ps : list (string * Position))
  : list (string * Position) :=
  let ps1 :=
    if dict_mem (coin d) ps then ps else dict_set (coin d) (new_position d) ps in
  match dict_get (coin d) ps1 with
  | Some p => dict_set (coin d) (set_size (startPosition d) p) ps1
  | None => ps1
  end.

Definition apply_fill (d : FillDetails) (st : AccountState) : AccountState :=
  let st1 := add_value (closedPnl d) st in
  let st2 := sub_value (fee d) st1 in
  {| account_value := account_value st2;
     positions := update_position d (positions st2);
     snapshot_time := snapshot_time st2 |}.

(** One iteration of the [for event in events_in_window] loop. *)
Definition apply_event (s : ReplayState) (ev : Event) : ReplayState :=
  let ws := ensure_user (working_states s) ev in
  match body ev with
  | fill d =>
      {| working_states := alter (apply_fill d) (user ev) ws;
         last_prices := <[coin d := price d]> (last_prices s) |}
  | funding _ funding_amount =>
      {| working_states := alter (add_value funding_amount) (user ev) ws;
         last_prices := last_prices s |}
  | deposit amount =>
      {| working_states := alter (add_value amount) (user ev) ws;
         last_prices := last_prices s |}
  | withdrawal amount =>
      {| working_states := alter (sub_value amount) (user ev) ws;
         last_prices := last_prices s |}
  | transfer amount =>
      {| working_states := alter (add_value amount) (user ev) ws;
         last_prices := last_prices s |}
  end.

(** [working_states = deepcopy(account_states)], [last_prices = {}], then the
    loop. *)
Definition initial_state (account_states : gmap string AccountState) : ReplayState :=
  {| working_states := account_states; last_prices := ∅ |}.

Definition replay_events (s : ReplayState) (evs : list Event) : ReplayState :=
  fold_left apply_event evs s.

(** ** STEP 4: the forced-deleveraging fills *)

(** [needle in hay] on Python strings. *)
Fixpoint contains (needle hay : string) : bool :=
  match hay with
  | EmptyString => String.prefix needle hay
  | String _ rest => String.prefix needle hay || contains needle rest
  end.

(** [event['type'] == 'fill'] and [direction == 'Auto-Deleveraging'] *)
Definition is_adl (e : Event) : bool :=
  match body e with
  | fill d => String.eqb (direction d) "Auto-Deleveraging"
  | _ => false
  end.

(** The [elif 'Liquidated' in direction] branch. *)
Definition is_liquidation (e : Event) : bool :=
  match body e with
  | fill d =>
      negb (String.eqb (direction d) "Auto-Deleveraging")
      && contains "Liquidated" (direction d)
  | _ => false
  end.

Definition adl_events (evs : list Event) : list Event := List.filter is_adl evs.
Definition liquidations (evs : list Event) : list Event := List.filter is_liquidation evs.

(** ** STEP 5: the metrics of each forced-deleveraging fill *)

(** One iteration of the loop over [account_state['positions'].items()]:
    [None] for a position the loop skips with [continue], the position's
    unrealized PnL otherwise. *)
Definition unrealized (lp : gmap string float) (pos_coin : string) (position : Position)
  : option float :=
  if eq0 (pos_size position) then None
  else
    let current_price := default 0%float (lp !! pos_coin) in
    if eq0 current_price then None
    else
      match entry_price position with
      | None => None
      | Some entry =>
          if eq0 entry then None
          else if gt0 (pos_size position)
          then Some (PrimFloat.mul (pos_size position) (PrimFloat.sub current_price entry))
          else Some (PrimFloat.mul (PrimFloat.abs (pos_size position))
                       (PrimFloat.sub entry current_price))
      end.

Definition add_unrealized (lp : gmap string float) (total : float)
  (item : string * Position) : float :=
  match unrealized lp (fst item) (snd item) with
  | Some u => PrimFloat.add total u
  | None => total
  end.

(** [total_unrealized_pnl] after the loop over the account's positions. *)
Definition sum_unrealized (lp : gmap string float) (ps : list (string * Position)) : float :=
  fold_left (add_unrealized lp) ps 0%float.

(** [(position_unrealized_pnl / position_notional * 100) if position_notional > 0 else 0] *)
Definition compute_pnl_percent (position_unrealized_pnl position_notional : float)
  : result float :=
  if gt0 position_notional
  then q ← truediv position_unrealized_pnl position_notional;
       mret (PrimFloat.mul q 100%float)
  else mret 0%float.

(** [position_notional / account_value if account_value > 0 else 0] *)
Definition compute_leverage (position_notional value : float) : result float :=
  if gt0 value then truediv position_notional value else mret 0%float.

(** The body of the loop over [adl_events]: [Ok None] when the iteration ends
    in [continue], [Ok (Some r)] when it appends [r], [Raise e] when a
    statement of the body raises. *)
Definition adl_metrics (s : ReplayState) (adl : Event) : result (option AdlRecord) :=
  match body adl with
  | fill d =>
      match working_states s !! user adl with
      | None => mret None
      | Some account_state =>
          let total := sum_unrealized (last_prices s) (positions account_state) in
          let equity := PrimFloat.add (account_value account_state) total in
          match dict_get (coin d) (positions account_state) with
          | None => mret None
          | Some position =>
              match entry_price position with
              | None => Raise TypeError
              | Some entry =>
                  let pos_pnl :=
                    if gt0 (pos_size position)
                    then PrimFloat.mul (pos_size position) (PrimFloat.sub (price d) entry)
                    else PrimFloat.mul (PrimFloat.abs (pos_size position))
                           (PrimFloat.sub entry (price d)) in
                  let position_notional :=
                    PrimFloat.mul (PrimFloat.abs (pos_size position)) (price d) in
                  pct ← compute_pnl_percent pos_pnl position_notional;
                  leverage ← compute_leverage position_notional (account_value account_state);
                  mret (Some
                    {| r_user := user adl;
                       r_coin := coin d;
                       r_time := time adl;
                       adl_price := price d;
                       adl_size := fill_size d;
                       adl_notional := PrimFloat.mul (PrimFloat.abs (fill_size d)) (price d);
                       closed_pnl := closedPnl d;
                       position_size := pos_size position;
                       r_entry_price := entry;
                       account_value_realtime := account_value account_state;
                       total_unrealized_pnl := total;
                       total_equity := equity;
                       is_negative_equity := lt0 equity;
                       leverage_realtime := leverage;
                       position_unrealized_pnl := pos_pnl;
                       pnl_percent := pct;
                       liquidated_user := liquidation_data d |})
              end
          end
      end
  | _ => Raise KeyError
  end.

(** The loop over [adl_events], against the tables the fold left behind. *)
Fixpoint metrics_loop (s : ReplayState) (adls : list Event) : result (list AdlRecord) :=
  match adls with
  | [] => mret []
  | adl :: rest =>
      o ← adl_metrics s adl;
      rs ← metrics_loop s rest;
      mret (match o with Some r => r :: rs | None => rs end)
  end.

(** STEPS 2 to 5 of the script, from the loaded snapshot and event list to
    [adl_with_realtime]. *)
Definition final_state (account_states : gmap string AccountState)
  (all_events : list Event) : ReplayState :=
  replay_events (initial_state account_states) (events_in_window all_events).

Definition replay (account_states : gmap string AccountState) (all_events : list Event)
  : result (list AdlRecord) :=
  metrics_loop (final_state account_states all_events)
    (adl_events (events_in_window all_events)).

(** *** The metrics taken during the pass

    The specification's reading of STEP 5 (and of the script's comment "we
    need to get the account state AT THAT EXACT MOMENT"): the metrics of a
    forced-deleveraging fill are taken from the tables as they stand when the
    fold has just applied that fill.  This definition follows those words; it
    is what [replay] is compared with. *)
Fixpoint metrics_at_moment (s : ReplayState) (evs : list Event) : result (list AdlRecord) :=
  match evs with
  | [] => mret []
  | ev :: rest =>
      let s' := apply_event s ev in
      o ← (if is_adl ev then adl_metrics s' ev else mret None);
      rs ← metrics_at_moment s' rest;
      mret (match o with Some r => r :: rs | None => rs end)
  end.

Definition replay_at_moment (account_states : gmap string AccountState)
  (all_events : list Event) : result (list AdlRecord) :=
  metrics_at_moment (initial_state account_states) (events_in_window all_events).

(** ** The ADL extractor: [extract_adl_fills] *)

Module Extractor.

(** A [datetime] with a time zone is compared by its instant: it is
    modelled by its microseconds since the epoch.  [ADL_START] is
    2025-10-10 21:15:00 UTC and [ADL_END] is 21:27:00 UTC. *)
Definition ADL_START : Z := 1760130900000000.
Definition ADL_END : Z := 1760131620000000.

(** A fill dictionary after its [.get] defaults.  A numeric field is [None]
    when [float(...)] raises on its value. *)
Record RawFill : Type := {
  dir : string;
  coin : string;
  px : option float;
  sz : option float;
  side : string;
  startPosition : option float;
  closedPnl : option float;
  fee : option float
}.

(** An element of a record's ['events']: a list of at least two items
    (the account and the fill) or anything else. *)
Inductive RawEvent : Type :=
| Malformed
| Pair (user : string) (fill : RawFill).

(** A decoded line: ['block_time'] (the empty string when absent) and
    ['events']. *)
Record RawRecord : Type := {
  block_time_str : string;
  events : list RawEvent
}.

(** A row of [adl_fills]. *)
Record AdlFill : Type := {
  block_time : Z;
  a_user : string;
  a_coin : string;
  a_direction : string;
  a_price : float;
  a_size : float;
  a_side : string;
  start_position : float;
  closed_pnl : float;
  a_fee : float;
  a_notional : float
}.

(** [base, frac = s.rsplit('.', 1)]: the split at the last dot. *)
Fixpoint rsplit_dot (s : string) : option (string * string) :=
  match s with
  | EmptyString => None
  | String c rest =>
      match rsplit_dot rest with
      | Some (base, frac) => Some (String c base, frac)
      | None => if Ascii.eqb c "."%char then Some (EmptyString, rest) else None
      end
  end.

(** [s.ljust(n, '0')] *)
Fixpoint ljust0 (n : nat) (s : string) : string :=
  match n, s with
  | O, _ => s
  | S n', EmptyString => String "0"%char (ljust0 n' EmptyString)
  | S n', String c rest => String c (ljust0 n' rest)
  end.

(** The fraction of a second cut or padded to six digits. *)
Definition normalize_fraction (s : string) : string :=
  match rsplit_dot s with
  | Some (base, frac) => base ++ "." ++ ljust0 6 (String.substring 0 6 frac)
  | None => s
  end.

(** ['Auto-Deleveraging' in direction] *)
Definition is_adl_direction (direction : string) : bool :=
  contains "Auto-Deleveraging" direction.

(** [block_time < ADL_START or block_time >= ADL_END] *)
Definition outside_window (t : Z) : bool := (t <? ADL_START) || (t >=? ADL_END).

(** The loop over a record's events.  When a [float(...)] raises, the
    [except] clause abandons the rest of the line; the rows appended before
    stay. *)
Fixpoint scan_events (t : Z) (evs : list RawEvent) : list AdlFill :=
  match evs with
  | [] => []
  | Malformed :: rest => scan_events t rest
  | Pair u f :: rest =>
      if negb (is_adl_direction (dir f)) then scan_events t rest
      else if String.prefix "@" (coin f) then scan_events t rest
      else
        match px f, sz f, startPosition f, closedPnl f, fee f with
        | Some p, Some s, Some sp, Some cp, Some fe =>
            {| block_time := t; a_user := u; a_coin := coin f;
               a_direction := dir f; a_price := p; a_size := s;
               a_side := side f; start_position := sp; closed_pnl := cp;
               a_fee := fe; a_notional := PrimFloat.mul s p |}
            :: scan_events t rest
        | _, _, _, _, _ => []
        end
  end.

Section Parse.
(** [datetime.fromisoformat], with a naive result read as UTC: the
    instant in microseconds, or [None] when it raises. *)
Variable fromisoformat : string -> option Z.

Definition parse_block_time (data : RawRecord) : option Z :=
  if String.eqb (block_time_str data) EmptyString then None
  else fromisoformat (normalize_fraction (block_time_str data)).

(** The timestamp of a record that reaches the loop over its events. *)
Definition window_time (data : RawRecord) : option Z :=
  match parse_block_time data with
  | Some t => if outside_window t then None else Some t
  | None => None
  end.

(** One line of the file; [None] is a line [json.loads] rejects. *)
Definition extract_line (line : option RawRecord) : list AdlFill :=
  match line with
  | Some data =>
      match window_time data with
      | Some t => scan_events t (events data)
      | None => []
      end
  | None => []
  end.

Definition extract_adl_fills (lines : list (option RawRecord)) : list AdlFill :=
  flat_map extract_line lines.
End Parse.

End Extractor.

(** ** STEP 1: the account states of the snapshot *)

(** An element of the account-value file and an element of a market's
    ['positions'], with the keys the script reads. *)
Record SnapshotAccount : Type := {
  sa_user : string;
  sa_account_value : float
}.

Record SnapshotPosition : Type := {
  sp_user : string;
  sp_account_value : float;
  sp_size : float;
  sp_entry_price : option float;
  sp_notional_size : float
}.

Record SnapshotMarket : Type := {
  market_name : string;
  market_positions : list SnapshotPosition
}.

(** [s.replace(old, new)] for a non-empty [old]: the occurrences of [old]
    are replaced from left to right, and the search resumes after each
    occurrence ([skip] counts the characters of the occurrence still to
    pass). *)
Fixpoint replace_from (old new : string) (skip : nat) (s : string) : string :=
  match s with
  | EmptyString => EmptyString
  | String c rest =>
      match skip with
      | S k => replace_from old new k rest
      | O =>
          if String.prefix old s
          then (new ++ replace_from old new (String.length old - 1) rest)%string
          else String c (replace_from old new 0 rest)
      end
  end.

(** [market['market_name'].replace('hyperliquid:', '')] *)
Definition market_coin (name : string) : string :=
  replace_from "hyperliquid:" "" 0 name.

Definition snapshot_account (value : float) : AccountState :=
  {| account_value := value; positions := []; snapshot_time := 1760126694218 |}.

Definition snapshot_position (pos : SnapshotPosition) : Position :=
  {| pos_size := sp_size pos;
     entry_price := sp_entry_price pos;
     notional := sp_notional_size pos |}.

(** The body of the loop over [account_values]. *)
Definition add_account (states : gmap string AccountState) (acc : SnapshotAccount)
  : gmap string AccountState :=
  <[sa_user acc := snapshot_account (sa_account_value acc)]> states.

Definition set_position (c : string) (p : Position) (st : AccountState) : AccountState :=
  {| account_value := account_value st;
     positions := dict_set c p (positions st);
     snapshot_time := snapshot_time st |}.

(** The body of the loop over a market's positions. *)
Definition add_position (c : string) (states : gmap string AccountState)
  (pos : SnapshotPosition) : gmap string AccountState :=
  let states1 :=
    match states !! sp_user pos with
    | Some _ => states
    | None => <[sp_user pos := snapshot_account (sp_account_value pos)]> states
    end in
  alter (set_position c (snapshot_position pos)) (sp_user pos) states1.

Definition add_market (states : gmap string AccountState) (market : SnapshotMarket)
  : gmap string AccountState :=
  fold_left (add_position (market_coin (market_name market)))
    (market_positions market) states.

Definition build_account_states (account_values : list SnapshotAccount)
  (positions_by_market : list SnapshotMarket) : gmap string AccountState :=
  fold_left add_market positions_by_market (fold_left add_account account_values ∅).

(** The positions of the snapshot in the order the loops visit them, each
    with the coin of its market. *)
Definition snapshot_positions (positions_by_market : list SnapshotMarket)
  : list (string * SnapshotPosition) :=
  flat_map
    (fun market => map (pair (market_coin (market_name market))) (market_positions market))
    positions_by_market.

(** ** STEP 2: loading the events

    The records are taken as decoded, with the keys the script reads and
    with [float(...)] applied to the values it converts; an optional key is
    [None] when absent.  A missing required key or a value that does not
    convert ends the script with an exception before any output, and is
    outside this model. *)

(** The [details] of a fill. *)
Record RawDetails : Type := {
  rd_coin : string;
  rd_time : Z;
  rd_px : float;
  rd_sz : float;
  rd_side : string;
  rd_dir : option string;
  rd_closedPnl : option float;
  rd_fee : option float;
  rd_startPosition : option float;
  rd_liquidation : option string
}.

(** [details['coin'].startswith('@') or details['coin'] == 'PURR/USDC'] *)
Definition is_spot (c : string) : bool :=
  String.prefix "@" c || String.eqb c "PURR/USDC".

Definition fill_event (u : string) (details : RawDetails) : Event :=
  {| time := rd_time details;
     user := u;
     body := fill
       {| coin := rd_coin details;
          price := rd_px details;
          fill_size := rd_sz details;
          side := rd_side details;
          direction := default "Unknown" (rd_dir details);
          closedPnl := default 0%float (rd_closedPnl details);
          fee := default 0%float (rd_fee details);
          startPosition := default 0%float (rd_startPosition details);
          liquidation_data := rd_liquidation details |} |}.

(** The events of one block: its fills in order, the spot fills skipped. *)
Definition load_fill_block (block : list (string * RawDetails)) : list Event :=
  flat_map
    (fun item =>
       if is_spot (rd_coin (snd item)) then [] else [fill_event (fst item) (snd item)])
    block.

(** The blocks of the two fill files, in order. *)
Definition load_fills (blocks : list (list (string * RawDetails))) : list Event :=
  flat_map load_fill_block blocks.

Record FundingDelta : Type := {
  fd_user : string;
  fd_coin : string;
  fd_funding_amount : float
}.

(** A ledger update: its users and, of its delta, the type, the amount
    ([usdc]) and the direction of a class transfer ([toPerp], false when
    absent). *)
Record LedgerUpdate : Type := {
  lu_users : list string;
  lu_type : option string;
  lu_usdc : option float;
  lu_toPerp : bool
}.

(** A record of a misc file: its time string and, of its [inner], the
    deltas under ['Funding'] and the update under ['LedgerUpdate'], each
    [None] when the key is absent. *)
Record MiscRecord : Type := {
  mr_time : string;
  mr_funding : option (list FundingDelta);
  mr_ledger : option LedgerUpdate
}.

(** [s.split('.')[0]] and the rest of [s] after its first dot. *)
Fixpoint before_dot (s : string) : string :=
  match s with
  | EmptyString => EmptyString
  | String c rest => if Ascii.eqb c "."%char then EmptyString else String c (before_dot rest)
  end.

Fixpoint after_dot (s : string) : option string :=
  match s with
  | EmptyString => None
  | String c rest => if Ascii.eqb c "."%char then Some rest else after_dot rest
  end.

(** [s[n:]] *)
Fixpoint drop_chars (n : nat) (s : string) : string :=
  match n, s with
  | O, _ => s
  | S _, EmptyString => EmptyString
  | S k, String _ rest => drop_chars k rest
  end.

(** The time string handed to [datetime.fromisoformat]: "Z" replaced by
    "+00:00", then, when there is a dot, [parts[0] + '.' + parts[1][:6] +
    parts[1][9:]] for [parts = time_str.split('.')]. *)
Definition misc_time_string (s : string) : string :=
  let time_str := replace_from "Z" "+00:00" 0 s in
  match after_dot time_str with
  | Some rest =>
      let part1 := before_dot rest in
      (before_dot time_str ++ "." ++ String.substring 0 6 part1 ++ drop_chars 9 part1)%string
  | None => time_str
  end.

Definition user_events (t : Z) (b : EventBody) (users : list string) : list Event :=
  map (fun u => {| time := t; user := u; body := b |}) users.

(** The events of a ledger update: one per listed user for a deposit, a
    withdrawal or a class transfer, none for any other type. *)
Definition ledger_events (t : Z) (ledger : LedgerUpdate) : list Event :=
  let usdc_amount := default 0%float (lu_usdc ledger) in
  match lu_type ledger with
  | Some ty =>
      if String.eqb ty "deposit" then user_events t (deposit usdc_amount) (lu_users ledger)
      else if String.eqb ty "withdraw"
      then user_events t (withdrawal usdc_amount) (lu_users ledger)
      else if String.eqb ty "accountClassTransfer"
      then user_events t
             (transfer (if lu_toPerp ledger then usdc_amount
                        else PrimFloat.opp usdc_amount))
             (lu_users ledger)
      else []
  | None => []
  end.

Section MiscTime.
(** [int(datetime.fromisoformat(s).timestamp() * 1000)] *)
Variable timestamp_ms : string -> Z.

Definition misc_events (ev : MiscRecord) : list Event :=
  let t := timestamp_ms (misc_time_string (mr_time ev)) in
  (match mr_funding ev with
   | Some deltas =>
       map (fun delta =>
              {| time := t; user := fd_user delta;
                 body := funding (fd_coin delta) (fd_funding_amount delta) |})
         deltas
   | None => []
   end
   ++
   match mr_ledger ev with
   | Some ledger => ledger_events t ledger
   | None => []
   end)%list.

(** The blocks of the two misc files, in order. *)
Definition load_misc (blocks : list (list MiscRecord)) : list Event :=
  flat_map (flat_map misc_events) blocks.

(** [all_events] as STEP 2 leaves it before the sort. *)
Definition load_all_events (fill_blocks : list (list (string * RawDetails)))
  (misc_blocks : list (list MiscRecord)) : list Event :=
  (load_fills fill_blocks ++ load_misc misc_blocks)%list.

(** STEPS 1 to 5 on the decoded input files. *)
Definition run_script (account_values : list SnapshotAccount)
  (positions_by_market : list SnapshotMarket)
  (fill_blocks : list (list (string * RawDetails)))
  (misc_blocks : list (list MiscRecord)) : result (list AdlRecord) :=
  replay (build_account_states account_values positions_by_market)
    (load_all_events fill_blocks misc_blocks).
End MiscTime.

(** ** Predicates on the account map *)


(** No position entry holds a [null] entry price. *)
Definition entries_set (ws : gmap string AccountState) : Prop :=
  map_Forall
    (fun _ st => Forall (fun item => is_Some (entry_price (snd item))) (positions st))
    ws.

(** The entry price stored for instrument [c] of account [u], when there is
    such a position entry. *)
Definition stored_entry (ws : gmap string AccountState) (u c : string)
  : option (option float) :=
  match ws !! u with
  | Some st =>
      match dict_get c (positions st) with
      | Some p => Some (entry_price p)
      | None => None
      end
  | None => None
  end.

(** What an event does to the state of its own account: the branch of the
    fold's [if]/[elif] chain that its type selects. *)
Definition account_step (b : EventBody) : AccountState -> AccountState :=
  match b with
  | fill d => apply_fill d
  | funding _ funding_amount => add_value funding_amount
  | deposit amount => add_value amount
  | withdrawal amount => sub_value amount
  | transfer amount => add_value amount
  end.

(** The row [r] is the row of the forced-deleveraging fill [adl]: same
    account, same instrument, same time. *)
Definition row_of (adl : Event) (r : AdlRecord) : Prop :=
  r_user r = user adl /\ r_time r = time adl
  /\ exists d, body adl = fill d /\ r_coin r = coin d.

(** ** Views of the fold used by its properties *)

(** The position entry stored for instrument [c] of account [u]. *)
Definition stored_position (ws : gmap string AccountState) (u c : string)
  : option Position :=
  match ws !! u with
  | Some st => dict_get c (positions st)
  | None => None
  end.

(** What one event does to the entry of account [u] in the map: nothing
    when the event is of another account; otherwise the account is created
    when missing and the event's branch is applied to it. *)
Definition step_own (u : string) (o : option AccountState) (ev : Event)
  : option AccountState :=
  if decide (user ev = u)
  then Some (account_step (body ev) (default (new_account (time ev)) o))
  else o.

(** What one event does to the account value of its account: the [+=] and
    [-=] statements of its branch, in their order. *)
Definition value_step (v : float) (b : EventBody) : float :=
  match b with
  | fill d => PrimFloat.sub (PrimFloat.add v (closedPnl d)) (fee d)
  | funding _ funding_amount => PrimFloat.add v funding_amount
  | deposit amount => PrimFloat.add v amount
  | withdrawal amount => PrimFloat.sub v amount
  | transfer amount => PrimFloat.add v amount
  end.

(** The event is a fill of account [u] on instrument [c]. *)
Definition fill_on (u c : string) (e : Event) : Prop :=
  user e = u /\ exists d, body e = fill d /\ coin d = c.

(** The event is a fill on instrument [c], of any account. *)
Definition fill_of_coin (c : string) (e : Event) : Prop :=
  exists d, body e = fill d /\ coin d = c.

(** ** Views of the snapshot loops *)

(** What the loops of STEP 1 do to the entry of account [u]. *)
Definition account_entry_step (u : string) (o : option AccountState)
  (acc : SnapshotAccount) : option AccountState :=
  if decide (sa_user acc = u) then Some (snapshot_account (sa_account_value acc)) else o.

Definition position_entry_step (u : string) (o : option AccountState)
  (item : string * SnapshotPosition) : option AccountState :=
  if decide (sp_user (snd item) = u)
  then Some (set_position (fst item) (snapshot_position (snd item))
               (default (snapshot_account (sp_account_value (snd item))) o))
  else o.

(** ** Views of the extractor's time string *)

(** The string of [n] characters "0". *)
Fixpoint zeros (n : nat) : string :=
  match n with
  | O => EmptyString
  | S k => String "0"%char (zeros k)
  end.

(** ** Views of the extractor's fill loop *)

(** The fill passes the two [continue] tests of the loop: its label contains
    "Auto-Deleveraging" and its coin does not start with "@". *)
Definition fill_qualifies (f : Extractor.RawFill) : bool :=
  Extractor.is_adl_direction (Extractor.dir f)
  && negb (String.prefix "@" (Extractor.coin f)).

(** The row of a fill, when its five [float(...)] conversions succeed. *)
Definition fill_row (t : Z) (u : string) (f : Extractor.RawFill)
  : option Extractor.AdlFill :=
  match Extractor.px f, Extractor.sz f, Extractor.startPosition f,
        Extractor.closedPnl f, Extractor.fee f with
  | Some p, Some s, Some sp, Some cp, Some fe =>
      Some {| Extractor.block_time := t; Extractor.a_user := u;
              Extractor.a_coin := Extractor.coin f;
              Extractor.a_direction := Extractor.dir f;
              Extractor.a_price := p; Extractor.a_size := s;
              Extractor.a_side := Extractor.side f;
              Extractor.start_position := sp; Extractor.closed_pnl := cp;
              Extractor.a_fee := fe; Extractor.a_notional := PrimFloat.mul s p |}
  | _, _, _, _, _ => None
  end.

(** The rows an event contributes when nothing raises. *)
Definition event_rows (t : Z) (ev : Extractor.RawEvent) : list Extractor.AdlFill :=
  match ev with
  | Extractor.Malformed => []
  | Extractor.Pair u f =>
      if fill_qualifies f then option_list (fill_row t u f) else []
  end.

(** ** Scenarios *)

Module Scenario.

(** The snapshot: account A with value 1000 and a long position of size 2
    in X entered at 100. *)
Definition position_X : Position :=
  {| pos_size := 2%float; entry_price := Some 100%float; notional := 200%float |}.

Definition account_A : AccountState :=
  {| account_value := 1000%float;
     positions := [("X", position_X)];
     snapshot_time := SNAPSHOT_TIME |}.

Definition account_B : AccountState :=
  {| account_value := 250%float; positions := []; snapshot_time := SNAPSHOT_TIME |}.

Definition snapshot : gmap string AccountState :=
  {[ "A" := account_A; "B" := account_B ]}.

(** A funding event of +5, then a forced-deleveraging fill on X of size 2
    at price 90 with realized PnL -20 and fee 1.  The fill reports the
    position it found, 2, as its [startPosition]. *)
Definition funding_A : Event :=
  {| time := 1760130900000; user := "A"; body := funding "X" 5%float |}.

Definition adl_fill : FillDetails :=
  {| coin := "X"; price := 90%float; fill_size := 2%float; side := "A";
     direction := "Auto-Deleveraging"; closedPnl := (-20)%float;
     fee := 1%float; startPosition := 2%float; liquidation_data := None |}.

Definition adl_A : Event :=
  {| time := 1760130900001; user := "A"; body := fill adl_fill |}.

Definition events : list Event := [funding_A; adl_A].

(** The same events followed, one millisecond later and still inside the
    window, by a deposit of 50 into A. *)
Definition deposit_A : Event :=
  {| time := 1760130900002; user := "A"; body := deposit 50%float |}.

Definition events_then_deposit : list Event := [funding_A; adl_A; deposit_A].

(** The row the script is expected to emit for [adl_A]. *)
Definition expected_record : AdlRecord :=
  {| r_user := "A"; r_coin := "X"; r_time := 1760130900001;
     adl_price := 90%float; adl_size := 2%float; adl_notional := 180%float;
     closed_pnl := (-20)%float; position_size := 2%float;
     r_entry_price := 100%float;
     account_value_realtime := 984%float;
     total_unrealized_pnl := (-20)%float;
     total_equity := 964%float;
     is_negative_equity := false;
     leverage_realtime := PrimFloat.div (PrimFloat.mul 2%float 90%float) 984%float;
     position_unrealized_pnl := (-20)%float;
     pnl_percent :=
       PrimFloat.mul (PrimFloat.div (-20)%float 180%float) 100%float;
     liquidated_user := None |}.

(** A forced-deleveraging fill of an account the snapshot does not have,
    with no realized PnL and no fee: the account is created with value 0
    and keeps it. *)
Definition adl_fill_C : FillDetails :=
  {| coin := "X"; price := 90%float; fill_size := 3%float; side := "B";
     direction := "Auto-Deleveraging"; closedPnl := 0%float;
     fee := 0%float; startPosition := 3%float; liquidation_data := None |}.

Definition adl_C : Event :=
  {| time := 1760130900003; user := "C"; body := fill adl_fill_C |}.

Definition record_C : AdlRecord :=
  {| r_user := "C"; r_coin := "X"; r_time := 1760130900003;
     adl_price := 90%float; adl_size := 3%float; adl_notional := 270%float;
     closed_pnl := 0%float; position_size := 3%float;
     r_entry_price := 90%float;
     account_value_realtime := 0%float;
     total_unrealized_pnl := 0%float;
     total_equity := 0%float;
     is_negative_equity := false;
     leverage_realtime := 0%float;
     position_unrealized_pnl := 0%float;
     pnl_percent := 0%float;
     liquidated_user := None |}.

(** A position with no entry price, and a last-price table. *)
Definition position_Y : Position :=
  {| pos_size := 4%float; entry_price := None; notional := 0%float |}.

Definition prices : gmap string float := {[ "X" := 90%float; "Y" := 7%float ]}.

(** Deposits stamped at the two ends of the reconstructor's window and
    one millisecond outside each end. *)
Definition deposit_at (t : Z) : Event :=
  {| time := t; user := "B"; body := deposit 1%float |}.

Definition boundary_events : list Event :=
  [ deposit_at (ADL_END_TIME + 1); deposit_at ADL_END_TIME;
    deposit_at SNAPSHOT_TIME; deposit_at (SNAPSHOT_TIME - 1) ].

(** A fill whose label contains "Auto-Deleveraging" and more. *)
Definition labelled_fill : FillDetails :=
  {| coin := "X"; price := 90%float; fill_size := 2%float; side := "A";
     direction := "Auto-Deleveraging (Cross)"; closedPnl := (-20)%float;
     fee := 1%float; startPosition := 2%float; liquidation_data := None |}.

Definition labelled_A : Event :=
  {| time := 1760130900001; user := "A"; body := fill labelled_fill |}.

(** Two records of the extractor's input, stamped at the two ends of its
    window with nanosecond fractions, and the values of
    [datetime.fromisoformat] on their normalized time strings. *)
Definition fromisoformat_ends (s : string) : option Z :=
  if String.eqb s "2025-10-10T21:15:00.000000" then Some Extractor.ADL_START
  else if String.eqb s "2025-10-10T21:27:00.000000" then Some Extractor.ADL_END
  else None.

Definition raw_adl_fill : Extractor.RawFill :=
  {| Extractor.dir := "Auto-Deleveraging"; Extractor.coin := "X";
     Extractor.px := Some 90%float; Extractor.sz := Some 2%float;
     Extractor.side := "A"; Extractor.startPosition := Some 2%float;
     Extractor.closedPnl := Some (-20)%float; Extractor.fee := Some 1%float |}.

Definition record_at_start : Extractor.RawRecord :=
  {| Extractor.block_time_str := "2025-10-10T21:15:00.000000000";
     Extractor.events := [Extractor.Pair "A" raw_adl_fill] |}.

Definition record_at_end : Extractor.RawRecord :=
  {| Extractor.block_time_str := "2025-10-10T21:27:00.000000000";
     Extractor.events := [Extractor.Pair "A" raw_adl_fill] |}.

(** A forced-deleveraging fill whose price does not convert, a spot fill
    and a fill that is not a forced deleveraging. *)
Definition raw_bad_price : Extractor.RawFill :=
  {| Extractor.dir := "Auto-Deleveraging"; Extractor.coin := "X";
     Extractor.px := None; Extractor.sz := Some 2%float;
     Extractor.side := "A"; Extractor.startPosition := Some 2%float;
     Extractor.closedPnl := Some (-20)%float; Extractor.fee := Some 1%float |}.

Definition raw_spot_fill : Extractor.RawFill :=
  {| Extractor.dir := "Auto-Deleveraging"; Extractor.coin := "@107";
     Extractor.px := None; Extractor.sz := Some 2%float;
     Extractor.side := "A"; Extractor.startPosition := Some 2%float;
     Extractor.closedPnl := Some (-20)%float; Extractor.fee := Some 1%float |}.

Definition raw_open_long : Extractor.RawFill :=
  {| Extractor.dir := "Open Long"; Extractor.coin := "X";
     Extractor.px := Some 91%float; Extractor.sz := Some 1%float;
     Extractor.side := "B"; Extractor.startPosition := Some 0%float;
     Extractor.closedPnl := Some 0%float; Extractor.fee := Some 1%float |}.

(** The files of the snapshot: A is in the account-value file, D only in
    the positions. *)
Definition account_values : list SnapshotAccount :=
  [ {| sa_user := "A"; sa_account_value := 1000%float |};
    {| sa_user := "B"; sa_account_value := 250%float |} ].

Definition positions_by_market : list SnapshotMarket :=
  [ {| market_name := "hyperliquid:X";
       market_positions :=
         [ {| sp_user := "A"; sp_account_value := 999%float; sp_size := 2%float;
              sp_entry_price := Some 100%float; sp_notional_size := 200%float |};
           {| sp_user := "D"; sp_account_value := 40%float; sp_size := (-1)%float;
              sp_entry_price := None; sp_notional_size := 100%float |} ] |};
    {| market_name := "hyperliquid:Y";
       market_positions :=
         [ {| sp_user := "D"; sp_account_value := 41%float; sp_size := 5%float;
              sp_entry_price := Some 7%float; sp_notional_size := 35%float |} ] |} ].

(** The input files of the end-to-end scenario: the position of A, one
    block of fills (a spot fill and the forced-deleveraging fill of A) and
    one misc record carrying the funding of A; and the value of the
    timestamp conversion on that record's time string. *)
Definition positions_priced : list SnapshotMarket :=
  [ {| market_name := "hyperliquid:X";
       market_positions :=
         [ {| sp_user := "A"; sp_account_value := 999%float; sp_size := 2%float;
              sp_entry_price := Some 100%float; sp_notional_size := 200%float |} ] |} ].

Definition details_adl : RawDetails :=
  {| rd_coin := "X"; rd_time := 1760130900001; rd_px := 90%float; rd_sz := 2%float;
     rd_side := "A"; rd_dir := Some "Auto-Deleveraging";
     rd_closedPnl := Some (-20)%float; rd_fee := Some 1%float;
     rd_startPosition := Some 2%float; rd_liquidation := None |}.

Definition details_spot : RawDetails :=
  {| rd_coin := "@107"; rd_time := 1760130900000; rd_px := 3%float; rd_sz := 1%float;
     rd_side := "B"; rd_dir := Some "Auto-Deleveraging";
     rd_closedPnl := None; rd_fee := None;
     rd_startPosition := None; rd_liquidation := None |}.

Definition fill_blocks : list (list (string * RawDetails)) :=
  [ [("B", details_spot); ("A", details_adl)] ].

Definition misc_blocks : list (list MiscRecord) :=
  [ [ {| mr_time := "2025-10-10T21:15:00.000000000Z";
         mr_funding := Some [ {| fd_user := "A"; fd_coin := "X";
                                 fd_funding_amount := 5%float |} ];
         mr_ledger := None |} ] ].

Definition timestamp_of (s : string) : Z :=
  if String.eqb s "2025-10-10T21:15:00.000000+00:00" then 1760130900000 else 0.








End Scenario.

(** * Properties *)

(** ** Python floats *)

(** A float that is [> 0] is not [== 0]: a guard [x > 0] protects a division
    by [x]. *)
Lemma gt0_not_eq0 (y : float) : gt0 y = true -> eq0 y = false.
Proof.
  unfold gt0, eq0.
  rewrite FloatAxioms.ltb_spec, FloatAxioms.eqb_spec.
  replace (Prim2SF 0%float) with (S754_zero false) by reflexivity.
  destruct (Prim2SF y) as [s | s | | s m e]; try destruct s; cbn; congruence.
Qed.

(** ** Insertion-ordered dictionaries *)

Section DictFacts.
Context {V : Type}.
Implicit Types (k : string) (v : V) (d : list (string * V)).

Lemma dict_get_set_same k v d : dict_get k (dict_set k v d) = Some v.
Proof.
  induction d as [| [k' v'] rest IH]; simpl.
  - now rewrite String.eqb_refl.
  - destruct (String.eqb k k') eqn:E; simpl; rewrite E; auto.
Qed.

Lemma dict_get_set_other k k' v d :
  k <> k' -> dict_get k' (dict_set k v d) = dict_get k' d.
Proof.
  intros Hne.
  induction d as [| [k0 v0] rest IH]; simpl.
  - destruct (String.eqb k' k) eqn:E; auto.
    apply String.eqb_eq in E. congruence.
  - destruct (String.eqb k k0) eqn:E; simpl.
    + apply String.eqb_eq in E. subst k0.
      destruct (String.eqb k' k) eqn:E'; auto.
      apply String.eqb_eq in E'. congruence.
    + now rewrite IH.
Qed.

Lemma dict_mem_true k d : dict_mem k d = true <-> exists v, dict_get k d = Some v.
Proof.
  unfold dict_mem. destruct (dict_get k d) as [v |].
  - split; eauto.
  - split; [discriminate | intros [v Hv]; discriminate].
Qed.
End DictFacts.

(** ** The sort and the window *)

Lemma In_insert_by_time (e x : Event) (l : list Event) :
  In x (insert_by_time e l) <-> x = e \/ In x l.
Proof.
  induction l as [| y rest IH]; simpl.
  - intuition.
  - destruct (time e <=? time y); simpl; rewrite ?IH; intuition.
Qed.

Lemma In_sort_by_time (x : Event) (l : list Event) :
  In x (sort_by_time l) <-> In x l.
Proof.
  induction l as [| y rest IH]; simpl.
  - tauto.
  - rewrite In_insert_by_time, IH. intuition.
Qed.

(** The sorted list is in non-decreasing time order. *)
Lemma insert_by_time_sorted (e : Event) (l : list Event) :
  StronglySorted (fun a b => time a <= time b) l ->
  StronglySorted (fun a b => time a <= time b) (insert_by_time e l).
Proof.
  induction l as [| y rest IH]; intros Hs; simpl.
  - constructor; constructor.
  - inversion Hs as [| ? ? Hrest Hall]; subst.
    destruct (Z.leb_spec (time e) (time y)) as [Hle | Hgt].
    + constructor; [exact Hs |].
      constructor; [exact Hle |].
      rewrite Forall_forall in *. intros z Hz. specialize (Hall z Hz). lia.
    + constructor; [auto |].
      rewrite Forall_forall in *. intros z Hz.
      apply list_elem_of_In, In_insert_by_time in Hz as [-> | Hz]; [lia |].
      apply Hall, list_elem_of_In, Hz.
Qed.

Lemma sort_by_time_sorted (l : list Event) :
  StronglySorted (fun a b => time a <= time b) (sort_by_time l).
Proof.
  induction l as [| y rest IH]; simpl.
  - constructor.
  - now apply insert_by_time_sorted.
Qed.

(** Events with the same time keep the order of the source list. *)
Example sort_by_time_stable :
  sort_by_time
    [Scenario.deposit_at 5; Scenario.funding_A; Scenario.deposit_A; Scenario.adl_A;
     {| time := 1760130900002; user := "B"; body := withdrawal 1%float |}]
  = [Scenario.deposit_at 5; Scenario.funding_A; Scenario.adl_A; Scenario.deposit_A;
     {| time := 1760130900002; user := "B"; body := withdrawal 1%float |}].
Proof. reflexivity. Qed.

Lemma in_window_spec (e : Event) :
  in_window e = true <-> SNAPSHOT_TIME <= time e /\ time e <= ADL_END_TIME.
Proof.
  unfold in_window. rewrite andb_true_iff, !Z.leb_le. tauto.
Qed.

Lemma In_events_in_window (all_events : list Event) (e : Event) :
  In e (events_in_window all_events) <->
  In e all_events /\ SNAPSHOT_TIME <= time e /\ time e <= ADL_END_TIME.
Proof.
  unfold events_in_window.
  rewrite filter_In, In_sort_by_time, in_window_spec. tauto.
Qed.

(** C9: the reconstructor's analysis window is closed at both ends.  An event
    is folded exactly when it is one of the loaded events and its timestamp
    [t] satisfies [SNAPSHOT_TIME <= t <= ADL_END_TIME]: a loaded event
    stamped exactly at the snapshot time or exactly at the end time is in the
    window, and an event stamped strictly before the snapshot time or strictly
    after the end time is not. *)
Theorem C9_window_closed_at_both_ends (all_events : list Event) (e : Event) :
  (In e (events_in_window all_events) <->
     In e all_events /\ SNAPSHOT_TIME <= time e /\ time e <= ADL_END_TIME)
  /\ (In e all_events ->
      time e = SNAPSHOT_TIME \/ time e = ADL_END_TIME ->
      In e (events_in_window all_events))
  /\ (time e < SNAPSHOT_TIME \/ ADL_END_TIME < time e ->
      ~ In e (events_in_window all_events))
  /\ ADL_END_TIME = 1760131620000.
Proof.
  pose proof (In_events_in_window all_events e) as Hiff.
  split; [exact Hiff |].
  split; [| split; [| reflexivity]].
  - intros Hin Hb. apply Hiff. split; [exact Hin |].
    unfold SNAPSHOT_TIME, ADL_END_TIME in *. lia.
  - intros Hout Hin. apply Hiff in Hin. lia.
Qed.

Lemma C9_witness :
  events_in_window Scenario.boundary_events
  = [Scenario.deposit_at SNAPSHOT_TIME; Scenario.deposit_at ADL_END_TIME]
  /\ In (Scenario.deposit_at ADL_END_TIME) (events_in_window Scenario.boundary_events)
  /\ In (Scenario.deposit_at SNAPSHOT_TIME) (events_in_window Scenario.boundary_events)
  /\ ~ In (Scenario.deposit_at (ADL_END_TIME + 1))
         (events_in_window Scenario.boundary_events).
Proof.
  destruct (C9_window_closed_at_both_ends Scenario.boundary_events
              (Scenario.deposit_at ADL_END_TIME)) as (_ & Hend & _).
  destruct (C9_window_closed_at_both_ends Scenario.boundary_events
              (Scenario.deposit_at SNAPSHOT_TIME)) as (_ & Hstart & _).
  destruct (C9_window_closed_at_both_ends Scenario.boundary_events
              (Scenario.deposit_at (ADL_END_TIME + 1))) as (_ & _ & Hafter & _).
  split; [vm_compute; reflexivity |].
  split; [| split].
  - apply Hend; [simpl; tauto | right; reflexivity].
  - apply Hstart; [simpl; tauto | left; reflexivity].
  - apply Hafter. right. simpl. lia.
Defined.

(** ** The frame of the fold *)

Lemma apply_event_other (s : ReplayState) (ev : Event) (a : string) :
  user ev <> a ->
  working_states (apply_event s ev) !! a = working_states s !! a.
Proof.
  intros Hne.
  assert (Hens : ensure_user (working_states s) ev !! a = working_states s !! a).
  { unfold ensure_user. destruct (working_states s !! user ev); auto.
    now rewrite lookup_insert_ne. }
  unfold apply_event.
  destruct (body ev); simpl; rewrite lookup_alter_ne; auto.
Qed.

Lemma replay_events_other (evs : list Event) (s : ReplayState) (a : string) :
  (forall e, In e evs -> user e <> a) ->
  working_states (replay_events s evs) !! a = working_states s !! a.
Proof.
  revert s. induction evs as [| ev rest IH]; intros s Hno; simpl.
  - reflexivity.
  - unfold replay_events in *. simpl. rewrite IH.
    + apply apply_event_other. apply Hno. now left.
    + intros e He. apply Hno. now right.
Qed.

(** C8: an account of the initial snapshot that is the account of no event
    of the analysis window has, after the whole pass, the state it had in the
    snapshot: the same account value, the same positions (sizes, entry prices
    and notionals) and the same snapshot time. *)
Theorem C8_unreferenced_account_keeps_snapshot_state
  (account_states : gmap string AccountState) (all_events : list Event)
  (a : string) (st : AccountState) :
  account_states !! a = Some st ->
  (forall e, In e (events_in_window all_events) -> user e <> a) ->
  working_states (final_state account_states all_events) !! a = Some st.
Proof.
  intros Hsnap Hno.
  unfold final_state. rewrite replay_events_other by exact Hno.
  exact Hsnap.
Qed.

Lemma C8_witness :
  working_states (final_state Scenario.snapshot Scenario.events_then_deposit) !! "B"
  = Some Scenario.account_B.
Proof.
  apply C8_unreferenced_account_keeps_snapshot_state.
  - vm_compute. reflexivity.
  - intros e He. vm_compute in He.
    destruct He as [<- | [<- | [<- | []]]]; simpl; discriminate.
Defined.

(** ** The end-to-end scenario *)

(** C2: from the snapshot where account A has account value 1000 and a long
    position of size 2 in X entered at 100, a funding event of +5 followed by
    a forced-deleveraging fill on X of size 2 at price 90 with realized PnL
    -20 and fee 1 gives one row: account value 984, position unrealized PnL
    -20, total equity 964, leverage (2*90)/984 and negative-equity flag
    false; the account value stored for A is 984. *)
Theorem C2_end_to_end_scenario :
  replay Scenario.snapshot Scenario.events = Ok [Scenario.expected_record]
  /\ (account_value <$> working_states (final_state Scenario.snapshot Scenario.events) !! "A")
     = Some 984%float
  /\ account_value_realtime Scenario.expected_record = 984%float
  /\ position_unrealized_pnl Scenario.expected_record = (-20)%float
  /\ total_equity Scenario.expected_record = 964%float
  /\ leverage_realtime Scenario.expected_record
     = PrimFloat.div (PrimFloat.mul 2%float 90%float) 984%float
  /\ is_negative_equity Scenario.expected_record = false.
Proof.
  repeat split; vm_compute; reflexivity.
Qed.


(** ** When the metrics are taken *)

(** Two floats that a Boolean function separates are different. *)
Lemma float_apart (f : float -> bool) (x y : float) :
  f x = true -> f y = false -> x <> y.
Proof. intros Hx Hy Heq. subst y. congruence. Qed.

(** C1, evaluated on the code: in the end-to-end scenario followed by a
    deposit of 50 into the same account, the row of the forced-deleveraging
    fill reports the account value 1034 and the equity 1014, which are those
    of the state after the deposit, while the state at the moment the fill
    was applied gives 984 and 964. *)
Theorem C1_metrics_read_the_final_state :
  (exists r,
     replay Scenario.snapshot Scenario.events_then_deposit = Ok [r]
     /\ account_value_realtime r = 1034%float
     /\ total_equity r = 1014%float
     /\ leverage_realtime r = PrimFloat.div 180%float 1034%float)
  /\ replay_at_moment Scenario.snapshot Scenario.events_then_deposit
     = Ok [Scenario.expected_record]
  /\ replay Scenario.snapshot Scenario.events_then_deposit
     <> replay_at_moment Scenario.snapshot Scenario.events_then_deposit.
Proof.
  split; [| split].
  - eexists. split; [vm_compute; reflexivity |].
    repeat split; vm_compute; reflexivity.
  - vm_compute. reflexivity.
  - intros Heq.
    assert (Hav : (fun x => match x with
                            | Ok [r] => account_value_realtime r
                            | _ => 0%float
                            end) (replay Scenario.snapshot Scenario.events_then_deposit)
                  = 984%float).
    { rewrite Heq. vm_compute. reflexivity. }
    vm_compute in Hav.
    revert Hav. apply (float_apart (fun x => PrimFloat.ltb 1000%float x)); reflexivity.
Qed.

(** ** What the fold does to an account and to its positions *)

Lemma apply_event_same (s : ReplayState) (ev : Event) :
  working_states (apply_event s ev) !! user ev
  = Some (account_step (body ev)
            (default (new_account (time ev)) (working_states s !! user ev))).
Proof.
  assert (Hens : ensure_user (working_states s) ev !! user ev
                 = Some (default (new_account (time ev)) (working_states s !! user ev))).
  { unfold ensure_user. destruct (working_states s !! user ev) eqn:E; simpl.
    - exact E.
    - apply lookup_insert_eq. }
  unfold apply_event.
  destruct (body ev); simpl; rewrite lookup_alter_eq, Hens; reflexivity.
Qed.

Lemma positions_account_step (b : EventBody) (st : AccountState) :
  positions (account_step b st)
  = match b with
    | fill d => update_position d (positions st)
    | _ => positions st
    end.
Proof. destruct b; reflexivity. Qed.

Lemma update_position_same (d : FillDetails) (ps : list (string * Position)) :
  dict_get (coin d) (update_position d ps)
  = Some (set_size (startPosition d)
            (default (new_position d) (dict_get (coin d) ps))).
Proof.
  unfold update_position, dict_mem.
  destruct (dict_get (coin d) ps) as [p |] eqn:E; simpl.
  - rewrite E. apply dict_get_set_same.
  - rewrite dict_get_set_same. apply dict_get_set_same.
Qed.

Lemma update_position_other (d : FillDetails) (ps : list (string * Position)) (c : string) :
  c <> coin d -> dict_get c (update_position d ps) = dict_get c ps.
Proof.
  intros Hne. unfold update_position, dict_mem.
  destruct (dict_get (coin d) ps) as [p |] eqn:E; simpl.
  - rewrite E. apply dict_get_set_other. congruence.
  - rewrite dict_get_set_same.
    rewrite !dict_get_set_other by congruence. reflexivity.
Qed.

(** The entry price stored for [(u, c)] after one event: a fill of [u] on
    [c] keeps the entry price it finds and stores its own price only when it
    creates the entry; every other event leaves the entry as it is. *)
Lemma stored_entry_apply_event (s : ReplayState) (ev : Event) (u c : string) :
  stored_entry (working_states (apply_event s ev)) u c
  = match body ev with
    | fill d =>
        if decide (u = user ev /\ c = coin d)
        then Some (default (Some (price d)) (stored_entry (working_states s) u c))
        else stored_entry (working_states s) u c
    | _ => stored_entry (working_states s) u c
    end.
Proof.
  destruct (decide (u = user ev)) as [-> | Hu].
  - unfold stored_entry at 1. rewrite apply_event_same, positions_account_step.
    unfold stored_entry.
    destruct (body ev) as [d | ? ? | ? | ? | ?];
      try (destruct (working_states s !! user ev); reflexivity).
    destruct (decide (user ev = user ev /\ c = coin d)) as [[_ ->] | Hn].
    + rewrite update_position_same.
      destruct (working_states s !! user ev) as [st |]; simpl.
      * destruct (dict_get (coin d) (positions st)); reflexivity.
      * reflexivity.
    + rewrite update_position_other by tauto.
      destruct (working_states s !! user ev); reflexivity.
  - unfold stored_entry. rewrite apply_event_other by congruence.
    destruct (body ev) as [d | ? ? | ? | ? | ?]; try reflexivity.
    destruct (decide (u = user ev /\ c = coin d)) as [[? _] | _]; [contradiction | reflexivity].
Qed.

Lemma stored_entry_replay_events (evs : list Event) (s : ReplayState)
  (u c : string) (entry : option float) :
  stored_entry (working_states s) u c = Some entry ->
  stored_entry (working_states (replay_events s evs)) u c = Some entry.
Proof.
  revert s. induction evs as [| ev rest IH]; intros s Hs; simpl.
  - exact Hs.
  - apply IH. rewrite stored_entry_apply_event.
    destruct (body ev) as [d | ? ? | ? | ? | ?]; try exact Hs.
    destruct (decide (u = user ev /\ c = coin d)); [| exact Hs].
    rewrite Hs. reflexivity.
Qed.

(** C3, as the code has it: a fill stores its reported price as the entry
    price of the instrument's position only when it creates the position
    entry (the account had none for that instrument); when an entry is there,
    from the snapshot or from an earlier fill, the fill leaves its entry
    price as it is.  So through any sequence of events the entry price of an
    existing entry never changes. *)
Theorem C3_entry_price_set_at_creation_only :
  (forall (s : ReplayState) (ev : Event) (d : FillDetails),
     body ev = fill d ->
     stored_entry (working_states (apply_event s ev)) (user ev) (coin d)
     = Some (match stored_entry (working_states s) (user ev) (coin d) with
             | Some entry => entry
             | None => Some (price d)
             end))
  /\ (forall (s : ReplayState) (evs : list Event) (u c : string) (entry : option float),
        stored_entry (working_states s) u c = Some entry ->
        stored_entry (working_states (replay_events s evs)) u c = Some entry).
Proof.
  split.
  - intros s ev d Hd. rewrite stored_entry_apply_event, Hd.
    destruct (decide (user ev = user ev /\ coin d = coin d)) as [_ | Hn]; [| tauto].
    destruct (stored_entry (working_states s) (user ev) (coin d)); reflexivity.
  - intros s evs u c entry. apply stored_entry_replay_events.
Qed.

(** C3 as stated fails: in the end-to-end scenario the most recent (and
    only) fill of A on X reports the price 90, and the entry price stored for
    that position after the pass is still the snapshot's 100. *)
Lemma C3_counterexample :
  stored_entry (working_states (final_state Scenario.snapshot Scenario.events)) "A" "X"
  = Some (Some 100%float)
  /\ price Scenario.adl_fill = 90%float
  /\ 100%float <> 90%float.
Proof.
  split; [vm_compute; reflexivity |].
  split; [reflexivity |].
  apply (float_apart (fun x => PrimFloat.ltb 95%float x)); reflexivity.
Qed.

Lemma C3_witness :
  stored_entry
    (working_states (apply_event (initial_state Scenario.snapshot) Scenario.adl_A))
    "A" "X" = Some (Some 100%float)
  /\ stored_entry
       (working_states (replay_events (initial_state Scenario.snapshot) Scenario.events))
       "A" "X" = Some (Some 100%float).
Proof.
  destruct C3_entry_price_set_at_creation_only as [Hone Hmany].
  split.
  - exact (Hone (initial_state Scenario.snapshot) Scenario.adl_A Scenario.adl_fill eq_refl).
  - apply (Hmany (initial_state Scenario.snapshot) Scenario.events "A" "X" (Some 100%float)).
    vm_compute. reflexivity.
Defined.

(** ** The guards of the metrics loop *)

Lemma compute_pnl_percent_eq (pnl n : float) :
  compute_pnl_percent pnl n
  = Ok (if gt0 n then PrimFloat.mul (PrimFloat.div pnl n) 100%float else 0%float).
Proof.
  unfold compute_pnl_percent, truediv.
  destruct (gt0 n) eqn:E; [| reflexivity].
  rewrite (gt0_not_eq0 n E). reflexivity.
Qed.

Lemma compute_leverage_eq (n value : float) :
  compute_leverage n value
  = Ok (if gt0 value then PrimFloat.div n value else 0%float).
Proof.
  unfold compute_leverage, truediv.
  destruct (gt0 value) eqn:E; [| reflexivity].
  rewrite (gt0_not_eq0 value E). reflexivity.
Qed.

(** The body of the metrics loop, with its two guarded quotients solved. *)
Lemma adl_metrics_eq (s : ReplayState) (adl : Event) (d : FillDetails)
  (st : AccountState) (p : Position) (entry : float) :
  body adl = fill d ->
  working_states s !! user adl = Some st ->
  dict_get (coin d) (positions st) = Some p ->
  entry_price p = Some entry ->
  exists r,
    adl_metrics s adl = Ok (Some r)
    /\ r_user r = user adl /\ r_coin r = coin d /\ r_time r = time adl
    /\ adl_price r = price d
    /\ position_size r = pos_size p
    /\ account_value_realtime r = account_value st
    /\ total_unrealized_pnl r = sum_unrealized (last_prices s) (positions st)
    /\ position_unrealized_pnl r
       = (if gt0 (pos_size p)
          then PrimFloat.mul (pos_size p) (PrimFloat.sub (price d) entry)
          else PrimFloat.mul (PrimFloat.abs (pos_size p)) (PrimFloat.sub entry (price d)))
    /\ leverage_realtime r
       = (if gt0 (account_value st)
          then PrimFloat.div (PrimFloat.mul (PrimFloat.abs (pos_size p)) (price d))
                 (account_value st)
          else 0%float)
    /\ pnl_percent r
       = (if gt0 (PrimFloat.mul (PrimFloat.abs (pos_size p)) (price d))
          then PrimFloat.mul
                 (PrimFloat.div (position_unrealized_pnl r)
                    (PrimFloat.mul (PrimFloat.abs (pos_size p)) (price d)))
                 100%float
          else 0%float).
Proof.
  intros Hb Hu Hc He.
  unfold adl_metrics. rewrite Hb, Hu, Hc, He.
  rewrite compute_pnl_percent_eq, compute_leverage_eq.
  eexists. split; [reflexivity |]. simpl. repeat split; reflexivity.
Qed.

Lemma adl_metrics_cases (s : ReplayState) (adl : Event) :
  adl_metrics s adl = Raise KeyError
  \/ adl_metrics s adl = Raise TypeError
  \/ adl_metrics s adl = Ok None
  \/ exists d st p entry,
       body adl = fill d /\ working_states s !! user adl = Some st
       /\ dict_get (coin d) (positions st) = Some p /\ entry_price p = Some entry.
Proof.
  unfold adl_metrics.
  destruct (body adl) as [d | ? ? | ? | ? | ?]; auto.
  destruct (working_states s !! user adl) as [st |]; auto.
  destruct (dict_get (coin d) (positions st)) as [p |] eqn:Hc; auto.
  destruct (entry_price p) as [entry |] eqn:He; auto.
  right. right. right. exists d, st, p, entry. auto.
Qed.

Lemma adl_metrics_no_division_error (s : ReplayState) (adl : Event) :
  adl_metrics s adl <> Raise ZeroDivisionError.
Proof.
  destruct (adl_metrics_cases s adl) as [H | [H | [H | (d & st & p & entry & Hb & Hu & Hc & He)]]];
    try (rewrite H; discriminate).
  destruct (adl_metrics_eq s adl d st p entry Hb Hu Hc He) as (r & Hr & _).
  rewrite Hr. discriminate.
Qed.

Lemma metrics_loop_no_division_error (s : ReplayState) (adls : list Event) :
  metrics_loop s adls <> Raise ZeroDivisionError.
Proof.
  induction adls as [| adl rest IH]; simpl.
  - discriminate.
  - pose proof (adl_metrics_no_division_error s adl) as Hadl.
    destruct (adl_metrics s adl) as [o | e]; simpl.
    + destruct (metrics_loop s rest) as [rs | e]; simpl; [discriminate | exact IH].
    + intros He. apply Hadl. congruence.
Qed.

(** C7: the metrics of a forced-deleveraging fill never raise a division
    error, neither for one fill nor over the whole run.  In every emitted row
    the leverage is the position notional at the deleveraging price (the
    absolute position size times the fill's price) divided by the account
    value when the account value is strictly positive and 0 otherwise, and
    the PnL percent is 0 whenever that notional is not strictly positive. *)
Theorem C7_zero_denominators_are_guarded :
  (forall (s : ReplayState) (adl : Event),
     adl_metrics s adl <> Raise ZeroDivisionError)
  /\ (forall (account_states : gmap string AccountState) (all_events : list Event),
        replay account_states all_events <> Raise ZeroDivisionError)
  /\ (forall (s : ReplayState) (adl : Event) (r : AdlRecord),
        adl_metrics s adl = Ok (Some r) ->
        let position_notional :=
          PrimFloat.mul (PrimFloat.abs (position_size r)) (adl_price r) in
        leverage_realtime r
        = (if gt0 (account_value_realtime r)
           then PrimFloat.div position_notional (account_value_realtime r)
           else 0%float)
        /\ pnl_percent r
           = (if gt0 position_notional
              then PrimFloat.mul
                     (PrimFloat.div (position_unrealized_pnl r) position_notional)
                     100%float
              else 0%float)
        /\ (gt0 (account_value_realtime r) = false -> leverage_realtime r = 0%float)
        /\ (gt0 position_notional = false -> pnl_percent r = 0%float)).
Proof.
  split; [exact adl_metrics_no_division_error |].
  split; [intros; apply metrics_loop_no_division_error |].
  intros s adl r Hr.
  destruct (adl_metrics_cases s adl) as [H | [H | [H | (d & st & p & entry & Hb & Hu & Hc & He)]]];
    try congruence.
  destruct (adl_metrics_eq s adl d st p entry Hb Hu Hc He)
    as (r' & Hr' & _ & _ & _ & Hpx & Hsz & Hav & _ & _ & Hlev & Hpct).
  assert (r' = r) by congruence. subst r'.
  cbv zeta. rewrite Hpx, Hsz, Hav.
  split; [exact Hlev |]. split; [exact Hpct |].
  split.
  - intros Hz. rewrite Hlev, Hz. reflexivity.
  - intros Hz. rewrite Hpct, Hz. reflexivity.
Qed.

Lemma C7_witness :
  adl_metrics (final_state Scenario.snapshot [Scenario.adl_C]) Scenario.adl_C
  = Ok (Some Scenario.record_C)
  /\ account_value_realtime Scenario.record_C = 0%float
  /\ leverage_realtime Scenario.record_C = 0%float.
Proof.
  assert (Hrow : adl_metrics (final_state Scenario.snapshot [Scenario.adl_C]) Scenario.adl_C
                 = Ok (Some Scenario.record_C)) by (vm_compute; reflexivity).
  split; [exact Hrow |]. split; [reflexivity |].
  destruct C7_zero_denominators_are_guarded as (_ & _ & Hrows).
  destruct (Hrows _ _ _ Hrow) as (_ & _ & Hlev & _).
  apply Hlev. vm_compute. reflexivity.
Defined.

(** ** The unrealized-PnL aggregate *)

Lemma sum_unrealized_app (lp : gmap string float) (ps qs : list (string * Position)) :
  sum_unrealized lp (ps ++ qs)
  = fold_left (add_unrealized lp) qs (sum_unrealized lp ps).
Proof. unfold sum_unrealized. apply fold_left_app. Qed.

Lemma unrealized_skipped (lp : gmap string float) (c : string) (p : Position) :
  eq0 (pos_size p) = true
  \/ eq0 (default 0%float (lp !! c)) = true
  \/ entry_price p = None
  \/ (exists entry, entry_price p = Some entry /\ eq0 entry = true) ->
  unrealized lp c p = None.
Proof.
  unfold unrealized.
  intros [Hs | [Hp | [He | (entry & He & Hz)]]].
  - now rewrite Hs.
  - destruct (eq0 (pos_size p)); [reflexivity |]. now rewrite Hp.
  - destruct (eq0 (pos_size p)); [reflexivity |].
    destruct (eq0 (default 0%float (lp !! c))); [reflexivity |]. now rewrite He.
  - destruct (eq0 (pos_size p)); [reflexivity |].
    destruct (eq0 (default 0%float (lp !! c))); [reflexivity |].
    now rewrite He, Hz.
Qed.

(** C6: a position whose size is zero, whose last observed price is zero
    (or missing from the table), or whose entry price is unset or zero adds
    nothing to the unrealized-PnL aggregate: the aggregate over the positions
    with such an entry anywhere among them is the aggregate over the
    positions without it.  The aggregate is a total function: the loop has no
    statement that raises on such a position. *)
Theorem C6_skipped_positions_leave_the_aggregate
  (lp : gmap string float) (before after : list (string * Position))
  (c : string) (p : Position) :
  eq0 (pos_size p) = true
  \/ eq0 (default 0%float (lp !! c)) = true
  \/ entry_price p = None
  \/ (exists entry, entry_price p = Some entry /\ eq0 entry = true) ->
  sum_unrealized lp (before ++ (c, p) :: after) = sum_unrealized lp (before ++ after).
Proof.
  intros Hskip. rewrite !sum_unrealized_app. simpl.
  unfold add_unrealized at 2. simpl.
  now rewrite (unrealized_skipped lp c p Hskip).
Qed.

Lemma C6_witness :
  sum_unrealized Scenario.prices
    ([("X", Scenario.position_X)] ++ ("Y", Scenario.position_Y) :: [])
  = sum_unrealized Scenario.prices ([("X", Scenario.position_X)] ++ []).
Proof.
  apply C6_skipped_positions_leave_the_aggregate.
  right. right. left. reflexivity.
Defined.

(** ** Every forced-deleveraging fill finds its account and its position *)


Lemma fill_has_entry_after_replay (evs : list Event) (s : ReplayState)
  (e : Event) (d : FillDetails) :
  In e evs -> body e = fill d ->
  exists entry,
    stored_entry (working_states (replay_events s evs)) (user e) (coin d) = Some entry.
Proof.
  revert s. induction evs as [| ev rest IH]; intros s Hin Hd; [destruct Hin |].
  destruct Hin as [-> | Hin].
  - eexists. apply (stored_entry_replay_events rest).
    rewrite stored_entry_apply_event, Hd.
    destruct (decide (user e = user e /\ coin d = coin d)) as [_ | Hn]; [| tauto].
    reflexivity.
  - exact (IH (apply_event s ev) Hin Hd).
Qed.

(** An entry price found after the fold is the one the initial state had for
    that entry, or it is the price of the fill that created the entry. *)
Lemma stored_entry_origin (evs : list Event) (s : ReplayState)
  (u c : string) (entry : option float) :
  stored_entry (working_states (replay_events s evs)) u c = Some entry ->
  stored_entry (working_states s) u c = Some entry \/ exists x, entry = Some x.
Proof.
  revert s. induction evs as [| ev rest IH]; intros s H; [now left |].
  destruct (IH (apply_event s ev) H) as [Hstep | Hset]; [| now right].
  rewrite stored_entry_apply_event in Hstep.
  destruct (body ev) as [d | ? ? | ? | ? | ?]; try (now left).
  destruct (decide (u = user ev /\ c = coin d)); [| now left].
  destruct (stored_entry (working_states s) u c) as [old |]; simpl in Hstep.
  - now left.
  - right. exists (price d). congruence.
Qed.

Lemma dict_get_In {V : Type} (k : string) (v : V) (d : list (string * V)) :
  dict_get k d = Some v -> In (k, v) d.
Proof.
  induction d as [| [k' v'] rest IH]; simpl; [discriminate |].
  destruct (String.eqb k k') eqn:E.
  - apply String.eqb_eq in E. intros [= ->]. left. congruence.
  - intros H. right. auto.
Qed.

Lemma entries_set_stored (ws : gmap string AccountState) (u c : string)
  (entry : option float) :
  entries_set ws -> stored_entry ws u c = Some entry -> exists x, entry = Some x.
Proof.
  unfold entries_set, stored_entry. intros Hall H.
  destruct (ws !! u) as [st |] eqn:Hu; [| discriminate].
  destruct (dict_get c (positions st)) as [p |] eqn:Hc; [| discriminate].
  pose proof (map_Forall_lookup_1 _ _ _ _ Hall Hu) as Hst. simpl in Hst.
  rewrite Forall_forall in Hst.
  destruct (Hst (c, p)) as [x Hx].
  - apply list_elem_of_In. now apply dict_get_In.
  - exists x. simpl in Hx. congruence.
Qed.

Lemma In_adl_events (evs : list Event) (adl : Event) :
  In adl (adl_events evs) <->
  In adl evs /\ exists d, body adl = fill d /\ direction d = "Auto-Deleveraging".
Proof.
  unfold adl_events, is_adl. rewrite filter_In.
  destruct (body adl) as [d | ? ? | ? | ? | ?].
  - rewrite String.eqb_eq. split.
    + intros [Hin Hd]. eauto.
    + intros [Hin (d' & [= <-] & Hd)]. auto.
  - split; [intros [_ ?]; discriminate | intros [_ (? & ? & _)]; discriminate].
  - split; [intros [_ ?]; discriminate | intros [_ (? & ? & _)]; discriminate].
  - split; [intros [_ ?]; discriminate | intros [_ (? & ? & _)]; discriminate].
  - split; [intros [_ ?]; discriminate | intros [_ (? & ? & _)]; discriminate].
Qed.

Lemma metrics_loop_all_rows (s : ReplayState) (adls : list Event) :
  (forall adl, In adl adls -> exists r, adl_metrics s adl = Ok (Some r) /\ row_of adl r) ->
  exists rows, metrics_loop s adls = Ok rows /\ Forall2 row_of adls rows.
Proof.
  induction adls as [| adl rest IH]; intros Hall; simpl.
  - exists []. split; [reflexivity | constructor].
  - destruct (Hall adl (or_introl eq_refl)) as (r & Hr & Hrow).
    destruct IH as (rows & Hrows & Hf).
    { intros a Ha. apply Hall. now right. }
    exists (r :: rows). rewrite Hr, Hrows. split; [reflexivity |].
    now constructor.
Qed.

Lemma stored_entry_Some (ws : gmap string AccountState) (u c : string)
  (entry : option float) :
  stored_entry ws u c = Some entry ->
  exists st p,
    ws !! u = Some st /\ dict_get c (positions st) = Some p /\ entry_price p = entry.
Proof.
  unfold stored_entry. intros H.
  destruct (ws !! u) as [st |]; [| discriminate].
  destruct (dict_get c (positions st)) as [p |] eqn:Hc; [| discriminate].
  exists st, p. repeat split; congruence.
Qed.




(** ** Which fills are forced deleveraging *)

Lemma prefix_spec (n h : string) :
  String.prefix n h = true <-> exists post, h = (n ++ post)%string.
Proof.
  revert h. induction n as [| a n IH]; intros h.
  - destruct h; simpl; split; eauto.
  - destruct h as [| b h]; simpl.
    + split; [discriminate | intros [post H]; discriminate].
    + destruct (ascii_dec a b) as [-> | Hab].
      * rewrite IH. split.
        -- intros [post ->]. eauto.
        -- intros [post [= ->]]. eauto.
      * split; [discriminate | intros [post [= Hba _]]; congruence].
Qed.

(** [contains needle hay] holds exactly when [needle] occurs in [hay]. *)
Lemma contains_spec (n h : string) :
  contains n h = true <-> exists pre post, h = (pre ++ n ++ post)%string.
Proof.
  induction h as [| a h IH].
  - change (contains n EmptyString) with (String.prefix n EmptyString).
    rewrite prefix_spec. split.
    + intros [post H]. exists EmptyString, post. exact H.
    + intros (pre & post & H). destruct pre as [| b pre]; [| discriminate].
      eauto.
  - change (contains n (String a h))
      with (String.prefix n (String a h) || contains n h).
    rewrite orb_true_iff, prefix_spec, IH. split.
    + intros [[post H] | (pre & post & H)].
      * exists EmptyString, post. exact H.
      * exists (String a pre), post. simpl. now rewrite H.
    + intros (pre & post & H). destruct pre as [| b pre]; simpl in H.
      * left. eauto.
      * right. injection H as _ H. eauto.
Qed.

(** C4, as the code has it: the extractor takes a fill for a
    forced-deleveraging fill exactly when its direction label contains
    "Auto-Deleveraging"; the reconstructor's identification step takes an
    event for one exactly when it is a fill whose direction label is
    "Auto-Deleveraging", the whole label. *)
Theorem C4_adl_classification :
  (forall label : string,
     Extractor.is_adl_direction label = true <->
     exists pre post, label = (pre ++ "Auto-Deleveraging" ++ post)%string)
  /\ (forall e : Event,
        is_adl e = true <->
        exists d, body e = fill d /\ direction d = "Auto-Deleveraging").
Proof.
  split.
  - intros label. apply contains_spec.
  - intros e. unfold is_adl.
    destruct (body e) as [d | ? ? | ? | ? | ?].
    + rewrite String.eqb_eq. split.
      * eauto.
      * intros (d' & [= <-] & H). exact H.
    + split; [discriminate | intros (? & ? & _); discriminate].
    + split; [discriminate | intros (? & ? & _); discriminate].
    + split; [discriminate | intros (? & ? & _); discriminate].
    + split; [discriminate | intros (? & ? & _); discriminate].
Qed.

(** C4 as stated fails: the label "Auto-Deleveraging (Cross)" contains
    "Auto-Deleveraging", the extractor's test accepts it, and the
    reconstructor's identification step does not take the fill: the run over
    it emits no row. *)
Lemma C4_counterexample :
  direction Scenario.labelled_fill
  = ("" ++ "Auto-Deleveraging" ++ " (Cross)")%string
  /\ Extractor.is_adl_direction (direction Scenario.labelled_fill) = true
  /\ is_adl Scenario.labelled_A = false
  /\ adl_events (events_in_window [Scenario.funding_A; Scenario.labelled_A]) = []
  /\ replay Scenario.snapshot [Scenario.funding_A; Scenario.labelled_A] = Ok [].
Proof.
  repeat split; vm_compute; reflexivity.
Qed.

(** ** The extractor's window *)

Lemma outside_window_spec (t : Z) :
  Extractor.outside_window t = false <->
  Extractor.ADL_START <= t /\ t < Extractor.ADL_END.
Proof.
  unfold Extractor.outside_window.
  rewrite orb_false_iff, Z.ltb_ge, Z.geb_leb, Z.leb_gt. tauto.
Qed.

Lemma In_scan_events (t : Z) (evs : list Extractor.RawEvent) (r : Extractor.AdlFill) :
  In r (Extractor.scan_events t evs) -> Extractor.block_time r = t.
Proof.
  induction evs as [| [| u f] rest IH]; simpl; [tauto | exact IH |].
  destruct (negb (Extractor.is_adl_direction (Extractor.dir f))); [exact IH |].
  destruct (String.prefix "@" (Extractor.coin f)); [exact IH |].
  destruct (Extractor.px f), (Extractor.sz f), (Extractor.startPosition f),
    (Extractor.closedPnl f), (Extractor.fee f); simpl; try tauto.
  intros [<- | H]; [reflexivity | auto].
Qed.

(** C5: the extractor keeps a record exactly when its parsed timestamp [t]
    satisfies [ADL_START <= t < ADL_END].  A record kept hands all its events
    to the fill loop and any other record contributes nothing; a record
    stamped exactly at the window start is kept, one stamped exactly at the
    window end is dropped; and every emitted row carries a timestamp of the
    half-open window. *)
Theorem C5_window_closed_open (fromisoformat : string -> option Z) :
  (forall (data : Extractor.RawRecord) (t : Z),
     Extractor.window_time fromisoformat data = Some t <->
     Extractor.parse_block_time fromisoformat data = Some t
     /\ Extractor.ADL_START <= t /\ t < Extractor.ADL_END)
  /\ (forall (data : Extractor.RawRecord) (t : Z),
        Extractor.parse_block_time fromisoformat data = Some t ->
        Extractor.extract_line fromisoformat (Some data)
        = if (Extractor.ADL_START <=? t) && (t <? Extractor.ADL_END)
          then Extractor.scan_events t (Extractor.events data)
          else [])
  /\ (forall data : Extractor.RawRecord,
        Extractor.parse_block_time fromisoformat data = Some Extractor.ADL_START ->
        Extractor.window_time fromisoformat data = Some Extractor.ADL_START)
  /\ (forall data : Extractor.RawRecord,
        Extractor.parse_block_time fromisoformat data = Some Extractor.ADL_END ->
        Extractor.window_time fromisoformat data = None
        /\ Extractor.extract_line fromisoformat (Some data) = [])
  /\ (forall (lines : list (option Extractor.RawRecord)) (r : Extractor.AdlFill),
        In r (Extractor.extract_adl_fills fromisoformat lines) ->
        Extractor.ADL_START <= Extractor.block_time r
        /\ Extractor.block_time r < Extractor.ADL_END).
Proof.
  assert (Hiff : forall data t,
            Extractor.window_time fromisoformat data = Some t <->
            Extractor.parse_block_time fromisoformat data = Some t
            /\ Extractor.ADL_START <= t /\ t < Extractor.ADL_END).
  { intros data t. unfold Extractor.window_time.
    destruct (Extractor.parse_block_time fromisoformat data) as [t' |].
    - destruct (Extractor.outside_window t') eqn:E.
      + split; [discriminate |]. intros [[= ->] Hw].
        apply outside_window_spec in Hw. congruence.
      + apply outside_window_spec in E. split.
        * intros [= ->]. auto.
        * intros [[= ->] _]. reflexivity.
    - split; [discriminate | intros [? _]; discriminate]. }
  split; [exact Hiff |].
  split; [| split; [| split]].
  - intros data t Hp. unfold Extractor.extract_line, Extractor.window_time.
    rewrite Hp. unfold Extractor.outside_window.
    destruct (Z.ltb_spec t Extractor.ADL_START), (Z.geb_spec t Extractor.ADL_END);
      destruct (Z.leb_spec Extractor.ADL_START t), (Z.ltb_spec t Extractor.ADL_END);
      simpl; try reflexivity; lia.
  - intros data Hp. apply Hiff. split; [exact Hp |].
    unfold Extractor.ADL_START, Extractor.ADL_END. lia.
  - intros data Hp.
    assert (Hw : Extractor.window_time fromisoformat data = None).
    { unfold Extractor.window_time. rewrite Hp. reflexivity. }
    split; [exact Hw |]. unfold Extractor.extract_line. now rewrite Hw.
  - intros lines r Hin. unfold Extractor.extract_adl_fills in Hin.
    apply in_flat_map in Hin as (line & _ & Hr).
    destruct line as [data |]; simpl in Hr; [| destruct Hr].
    destruct (Extractor.window_time fromisoformat data) as [t |] eqn:Hw; [| destruct Hr].
    apply Hiff in Hw as (_ & Hlo & Hhi).
    apply In_scan_events in Hr. rewrite Hr. auto.
Qed.

Lemma C5_witness :
  Extractor.window_time Scenario.fromisoformat_ends Scenario.record_at_start
  = Some Extractor.ADL_START
  /\ Extractor.window_time Scenario.fromisoformat_ends Scenario.record_at_end = None
  /\ Extractor.extract_line Scenario.fromisoformat_ends (Some Scenario.record_at_end) = [].
Proof.
  destruct (C5_window_closed_open Scenario.fromisoformat_ends)
    as (_ & _ & Hstart & Hend & _).
  split.
  - apply Hstart. vm_compute. reflexivity.
  - apply Hend. vm_compute. reflexivity.
Defined.

(** * Further properties of the fold *)

(** ** One account at a time *)

Lemma lookup_replay_events (evs : list Event) (s : ReplayState) (u : string) :
  working_states (replay_events s evs) !! u
  = fold_left (step_own u) evs (working_states s !! u).
Proof.
  revert s. induction evs as [| ev rest IH]; intros s; [reflexivity |].
  unfold replay_events in *. simpl. rewrite IH. f_equal.
  unfold step_own. destruct (decide (user ev = u)) as [<- | Hne].
  - apply apply_event_same.
  - now apply apply_event_other.
Qed.

Lemma fold_step_own_filter (u : string) (evs : list Event) (o : option AccountState) :
  fold_left (step_own u) evs o
  = fold_left (step_own u) (List.filter (fun e => String.eqb (user e) u) evs) o.
Proof.
  revert o. induction evs as [| ev rest IH]; intros o; [reflexivity |]. simpl.
  destruct (String.eqb (user ev) u) eqn:E; simpl.
  - apply IH.
  - rewrite IH. f_equal. unfold step_own.
    destruct (decide (user ev = u)) as [Heq | _]; [| reflexivity].
    apply String.eqb_eq in Heq. congruence.
Qed.

(** X1: The state of an account after the fold depends on nothing but the state
    it started from and its own events, in their order: two runs that agree
    on both agree on the account, whatever the other accounts and their
    events are. *)
Theorem account_depends_on_own_events
  (s s' : ReplayState) (evs evs' : list Event) (u : string) :
  working_states s !! u = working_states s' !! u ->
  List.filter (fun e => String.eqb (user e) u) evs
  = List.filter (fun e => String.eqb (user e) u) evs' ->
  working_states (replay_events s evs) !! u
  = working_states (replay_events s' evs') !! u.
Proof.
  intros Hst Hev. rewrite !lookup_replay_events.
  rewrite (fold_step_own_filter u evs), (fold_step_own_filter u evs').
  now rewrite Hst, Hev.
Qed.

Lemma account_depends_on_own_events_witness :
  working_states
    (replay_events (initial_state Scenario.snapshot)
       [Scenario.funding_A; Scenario.deposit_at 7; Scenario.adl_A]) !! "A"
  = working_states
      (replay_events (initial_state (delete "B" Scenario.snapshot)) Scenario.events) !! "A".
Proof.
  apply account_depends_on_own_events; vm_compute; reflexivity.
Defined.

Lemma account_value_account_step (b : EventBody) (st : AccountState) :
  account_value (account_step b st) = value_step (account_value st) b.
Proof. destruct b; reflexivity. Qed.

Lemma fold_step_own_value (u : string) (evs : list Event) (o : option AccountState)
  (st' : AccountState) :
  fold_left (step_own u) evs o = Some st' ->
  account_value st'
  = fold_left value_step
      (map body (List.filter (fun e => String.eqb (user e) u) evs))
      (from_option account_value 0%float o).
Proof.
  revert o. induction evs as [| ev rest IH]; intros o H; simpl in *.
  - now subst o.
  - unfold step_own in H at 2.
    destruct (decide (user ev = u)) as [Heq | Hne].
    + apply String.eqb_eq in Heq as E. rewrite E. simpl.
      rewrite (IH _ H). simpl. rewrite account_value_account_step.
      destruct o; reflexivity.
    + assert (E : String.eqb (user ev) u = false).
      { destruct (String.eqb (user ev) u) eqn:E; [| reflexivity].
        apply String.eqb_eq in E. contradiction. }
      rewrite E. exact (IH _ H).
Qed.

(** X2: The account value of an account after the fold is its starting value (0
    for an account the fold created) to which the deltas of its own events
    were applied one after the other, in event order: realized PnL added and
    fee subtracted for a fill, the amount added for funding, deposit and
    transfer, subtracted for a withdrawal. *)
Theorem account_value_is_running_total
  (s : ReplayState) (evs : list Event) (u : string) (st' : AccountState) :
  working_states (replay_events s evs) !! u = Some st' ->
  account_value st'
  = fold_left value_step
      (map body (List.filter (fun e => String.eqb (user e) u) evs))
      (from_option account_value 0%float (working_states s !! u)).
Proof.
  rewrite lookup_replay_events. apply fold_step_own_value.
Qed.

Lemma account_value_is_running_total_witness :
  account_value
    {| account_value := 1034%float;
       positions := [("X", Scenario.position_X)];
       snapshot_time := SNAPSHOT_TIME |}
  = fold_left value_step
      (map body (List.filter (fun e => String.eqb (user e) "A")
                   Scenario.events_then_deposit))
      (from_option account_value 0%float
         (working_states (initial_state Scenario.snapshot) !! "A")).
Proof.
  apply (account_value_is_running_total (initial_state Scenario.snapshot)
           Scenario.events_then_deposit "A").
  vm_compute. reflexivity.
Defined.

Lemma fold_step_own_is_Some (u : string) (evs : list Event) (o : option AccountState) :
  is_Some (fold_left (step_own u) evs o)
  <-> is_Some o \/ exists e, In e evs /\ user e = u.
Proof.
  revert o. induction evs as [| ev rest IH]; intros o; simpl.
  - split; [auto | intros [H | (e & [] & _)]; exact H].
  - rewrite IH. unfold step_own.
    destruct (decide (user ev = u)) as [Heq | Hne].
    + split; [| eauto]. intros _. right. exists ev. auto.
    + split.
      * intros [H | (e & He & Hu)]; [auto | right; eauto].
      * intros [H | (e & [<- | He] & Hu)]; [auto | contradiction | right; eauto].
Qed.

(** X3: The accounts of the state map after the fold are the accounts it started
    with and the accounts of the folded events: the fold creates an account
    for every event of an unknown account and never removes one. *)
Theorem accounts_after_replay (s : ReplayState) (evs : list Event) (u : string) :
  is_Some (working_states (replay_events s evs) !! u)
  <-> is_Some (working_states s !! u) \/ exists e, In e evs /\ user e = u.
Proof.
  rewrite lookup_replay_events. apply fold_step_own_is_Some.
Qed.

Lemma snapshot_time_account_step (b : EventBody) (st : AccountState) :
  snapshot_time (account_step b st) = snapshot_time st.
Proof. destruct b; reflexivity. Qed.

Lemma fold_step_own_snapshot_time (u : string) (evs : list Event)
  (st st' : AccountState) :
  fold_left (step_own u) evs (Some st) = Some st' ->
  snapshot_time st' = snapshot_time st.
Proof.
  revert st. induction evs as [| ev rest IH]; intros st H; simpl in *.
  - congruence.
  - unfold step_own in H at 2. destruct (decide (user ev = u)).
    + rewrite (IH _ H). apply snapshot_time_account_step.
    + exact (IH _ H).
Qed.

(** X4: The [snapshot_time] of an account never changes once the account is in
    the map: an account of the initial state keeps its own, and an account
    the fold creates carries the time of its first event. *)
Theorem snapshot_time_is_fixed_at_creation
  (s : ReplayState) (evs : list Event) (u : string) (st' : AccountState) :
  working_states (replay_events s evs) !! u = Some st' ->
  snapshot_time st'
  = match working_states s !! u with
    | Some st => snapshot_time st
    | None =>
        from_option time 0 (head (List.filter (fun e => String.eqb (user e) u) evs))
    end.
Proof.
  rewrite lookup_replay_events, fold_step_own_filter.
  destruct (working_states s !! u) as [st |].
  - apply fold_step_own_snapshot_time.
  - destruct (List.filter (fun e => String.eqb (user e) u) evs) as [| e own] eqn:Hown;
      simpl; [discriminate |].
    assert (He : user e = u).
    { assert (Hin : In e (List.filter (fun e => String.eqb (user e) u) evs))
        by (rewrite Hown; now left).
      apply filter_In in Hin as [_ Hin]. now apply String.eqb_eq. }
    unfold step_own at 2. destruct (decide (user e = u)); [| contradiction].
    intros H. rewrite (fold_step_own_snapshot_time _ _ _ _ H).
    apply snapshot_time_account_step.
Qed.

Lemma snapshot_time_is_fixed_at_creation_witness :
  snapshot_time
    {| account_value := 0%float;
       positions := [("X", {| pos_size := 3%float; entry_price := Some 90%float;
                              notional := 0%float |})];
       snapshot_time := 1760130900003 |}
  = match working_states (initial_state Scenario.snapshot) !! "C" with
    | Some st => snapshot_time st
    | None =>
        from_option time 0
          (head (List.filter (fun e => String.eqb (user e) "C")
                   [Scenario.funding_A; Scenario.adl_C; Scenario.adl_A]))
    end.
Proof.
  apply (snapshot_time_is_fixed_at_creation (initial_state Scenario.snapshot)
           [Scenario.funding_A; Scenario.adl_C; Scenario.adl_A] "C").
  vm_compute. reflexivity.
Defined.

(** ** Positions and last prices *)

Lemma replay_events_app (s : ReplayState) (evs evs' : list Event) :
  replay_events s (evs ++ evs') = replay_events (replay_events s evs) evs'.
Proof. unfold replay_events. apply fold_left_app. Qed.

Lemma stored_position_apply_event (s : ReplayState) (ev : Event) (u c : string) :
  stored_position (working_states (apply_event s ev)) u c
  = match body ev with
    | fill d =>
        if decide (u = user ev /\ c = coin d)
        then Some (set_size (startPosition d)
                     (default (new_position d) (stored_position (working_states s) u c)))
        else stored_position (working_states s) u c
    | _ => stored_position (working_states s) u c
    end.
Proof.
  destruct (decide (u = user ev)) as [-> | Hu].
  - unfold stored_position at 1. rewrite apply_event_same, positions_account_step.
    unfold stored_position.
    destruct (body ev) as [d | ? ? | ? | ? | ?];
      try (destruct (working_states s !! user ev); reflexivity).
    destruct (decide (user ev = user ev /\ c = coin d)) as [[_ ->] | Hn].
    + rewrite update_position_same.
      destruct (working_states s !! user ev) as [st |]; reflexivity.
    + rewrite update_position_other by tauto.
      destruct (working_states s !! user ev); reflexivity.
  - unfold stored_position. rewrite apply_event_other by congruence.
    destruct (body ev) as [d | ? ? | ? | ? | ?]; try reflexivity.
    destruct (decide (u = user ev /\ c = coin d)) as [[? _] | _]; [contradiction | reflexivity].
Qed.

Lemma stored_position_no_fill (evs : list Event) (s : ReplayState) (u c : string) :
  (forall e, In e evs -> ~ fill_on u c e) ->
  stored_position (working_states (replay_events s evs)) u c
  = stored_position (working_states s) u c.
Proof.
  revert s. induction evs as [| ev rest IH]; intros s Hno; [reflexivity |].
  unfold replay_events in *. simpl. rewrite IH by (intros e He; apply Hno; now right).
  rewrite stored_position_apply_event.
  destruct (body ev) as [d | ? ? | ? | ? | ?] eqn:Hb; try reflexivity.
  destruct (decide (u = user ev /\ c = coin d)) as [[-> ->] | _]; [| reflexivity].
  exfalso. apply (Hno ev (or_introl eq_refl)). split; eauto.
Qed.

(** X5: The size stored for a position is the [startPosition] of the most recent
    fill of that account on that instrument, that is the size the position
    had before that fill, not after it: the fill's own amount is not applied. *)
Theorem stored_size_is_last_start_position
  (s : ReplayState) (pre post : list Event) (e : Event) (d : FillDetails) :
  body e = fill d ->
  (forall e', In e' post -> ~ fill_on (user e) (coin d) e') ->
  exists p,
    stored_position (working_states (replay_events s (pre ++ e :: post)))
      (user e) (coin d) = Some p
    /\ pos_size p = startPosition d.
Proof.
  intros Hd Hpost.
  change (pre ++ e :: post)%list with (pre ++ [e] ++ post)%list.
  rewrite !replay_events_app, stored_position_no_fill by exact Hpost.
  unfold replay_events at 1. simpl.
  rewrite stored_position_apply_event, Hd.
  destruct (decide (user e = user e /\ coin d = coin d)) as [_ | Hn]; [| tauto].
  eexists. split; reflexivity.
Qed.

Lemma stored_size_is_last_start_position_witness :
  exists p,
    stored_position
      (working_states
         (replay_events (initial_state Scenario.snapshot)
            ([Scenario.funding_A] ++ Scenario.adl_A :: [Scenario.deposit_A])))
      "A" "X" = Some p
    /\ pos_size p = 2%float.
Proof.
  apply (stored_size_is_last_start_position (initial_state Scenario.snapshot)
           [Scenario.funding_A] [Scenario.deposit_A] Scenario.adl_A Scenario.adl_fill eq_refl).
  intros e' [<- | []] [_ (d & Hd & _)]. discriminate.
Defined.

(** X6: The fold never writes the notional of a position: after any events it is
    the notional the initial state had for that entry, and 0 for an entry the
    fold created. *)
Theorem notional_is_never_updated
  (s : ReplayState) (evs : list Event) (u c : string) (p : Position) :
  stored_position (working_states (replay_events s evs)) u c = Some p ->
  notional p = from_option notional 0%float (stored_position (working_states s) u c).
Proof.
  revert s. induction evs as [| ev rest IH]; intros s H.
  - simpl in H. now rewrite H.
  - unfold replay_events in *. simpl in H. rewrite (IH _ H).
    rewrite stored_position_apply_event.
    destruct (body ev) as [d | ? ? | ? | ? | ?]; try reflexivity.
    destruct (decide (u = user ev /\ c = coin d)); [| reflexivity].
    destruct (stored_position (working_states s) u c); reflexivity.
Qed.

Lemma notional_is_never_updated_witness :
  notional {| pos_size := 2%float; entry_price := Some 100%float; notional := 200%float |}
  = from_option notional 0%float
      (stored_position (working_states (initial_state Scenario.snapshot)) "A" "X").
Proof.
  apply (notional_is_never_updated (initial_state Scenario.snapshot)
           Scenario.events_then_deposit "A" "X").
  vm_compute. reflexivity.
Defined.

Lemma last_prices_apply_event (s : ReplayState) (ev : Event) (c : string) :
  last_prices (apply_event s ev) !! c
  = match body ev with
    | fill d => if decide (coin d = c) then Some (price d) else last_prices s !! c
    | _ => last_prices s !! c
    end.
Proof.
  unfold apply_event. destruct (body ev) as [d | ? ? | ? | ? | ?]; try reflexivity.
  simpl. destruct (decide (coin d = c)) as [-> | Hne].
  - apply lookup_insert_eq.
  - now apply lookup_insert_ne.
Qed.

Lemma last_prices_no_fill (evs : list Event) (s : ReplayState) (c : string) :
  (forall e, In e evs -> ~ fill_of_coin c e) ->
  last_prices (replay_events s evs) !! c = last_prices s !! c.
Proof.
  revert s. induction evs as [| ev rest IH]; intros s Hno; [reflexivity |].
  unfold replay_events in *. simpl. rewrite IH by (intros e He; apply Hno; now right).
  rewrite last_prices_apply_event.
  destruct (body ev) as [d | ? ? | ? | ? | ?] eqn:Hb; try reflexivity.
  destruct (decide (coin d = c)) as [Hc | _]; [| reflexivity].
  exfalso. apply (Hno ev (or_introl eq_refl)). exists d. auto.
Qed.

(** X7: The last-price table holds, for an instrument, the price of the most
    recent fill on it, whatever account the fill belongs to; an instrument
    with no fill among the events keeps the entry it had (none, from the
    initial state of a run). *)
Theorem last_price_is_most_recent_fill :
  (forall (s : ReplayState) (pre post : list Event) (e : Event) (d : FillDetails),
     body e = fill d ->
     (forall e', In e' post -> ~ fill_of_coin (coin d) e') ->
     last_prices (replay_events s (pre ++ e :: post)) !! coin d = Some (price d))
  /\ (forall (s : ReplayState) (evs : list Event) (c : string),
        (forall e, In e evs -> ~ fill_of_coin c e) ->
        last_prices (replay_events s evs) !! c = last_prices s !! c).
Proof.
  split; [| intros; now apply last_prices_no_fill].
  intros s pre post e d Hd Hpost.
  change (pre ++ e :: post)%list with (pre ++ [e] ++ post)%list.
  rewrite !replay_events_app, last_prices_no_fill by exact Hpost.
  unfold replay_events at 1. simpl.
  rewrite last_prices_apply_event, Hd.
  destruct (decide (coin d = coin d)); [reflexivity | contradiction].
Qed.

Lemma last_price_is_most_recent_fill_witness :
  last_prices
    (replay_events (initial_state Scenario.snapshot)
       ([Scenario.adl_C] ++ Scenario.adl_A :: [Scenario.deposit_A])) !! "X"
  = Some 90%float
  /\ last_prices (replay_events (initial_state Scenario.snapshot) [Scenario.deposit_A]) !! "X"
     = None.
Proof.
  destruct last_price_is_most_recent_fill as [Hlast Hnone].
  split.
  - apply (Hlast (initial_state Scenario.snapshot) [Scenario.adl_C] [Scenario.deposit_A]
             Scenario.adl_A Scenario.adl_fill eq_refl).
    intros e' [<- | []] (d & Hd & _). discriminate.
  - rewrite (Hnone (initial_state Scenario.snapshot) [Scenario.deposit_A] "X").
    + reflexivity.
    + intros e' [<- | []] (d & Hd & _). discriminate.
Defined.

(** X8: Funding, deposits, withdrawals and transfers change an account value and
    nothing else: over events none of which is a fill, every position entry
    and the whole last-price table stay as they were. *)
Theorem only_fills_touch_positions_and_prices
  (s : ReplayState) (evs : list Event) :
  (forall e d, In e evs -> body e <> fill d) ->
  last_prices (replay_events s evs) = last_prices s
  /\ forall u c,
       stored_position (working_states (replay_events s evs)) u c
       = stored_position (working_states s) u c.
Proof.
  intros Hno. split.
  - apply map_eq. intros c. apply last_prices_no_fill.
    intros e He (d & Hd & _). exact (Hno e d He Hd).
  - intros u c. apply stored_position_no_fill.
    intros e He [_ (d & Hd & _)]. exact (Hno e d He Hd).
Qed.

Lemma only_fills_touch_positions_and_prices_witness :
  last_prices
    (replay_events (initial_state Scenario.snapshot) [Scenario.funding_A; Scenario.deposit_A])
  = last_prices (initial_state Scenario.snapshot)
  /\ forall u c,
       stored_position
         (working_states
            (replay_events (initial_state Scenario.snapshot)
               [Scenario.funding_A; Scenario.deposit_A])) u c
       = stored_position (working_states (initial_state Scenario.snapshot)) u c.
Proof.
  apply only_fills_touch_positions_and_prices.
  intros e d [<- | [<- | []]]; discriminate.
Defined.

(** * Further properties of the metrics *)

(** A row the loop body appends, field by field. *)
Lemma adl_metrics_row (s : ReplayState) (adl : Event) (r : AdlRecord) :
  adl_metrics s adl = Ok (Some r) ->
  exists d st p entry,
    body adl = fill d
    /\ working_states s !! user adl = Some st
    /\ dict_get (coin d) (positions st) = Some p
    /\ entry_price p = Some entry
    /\ r_user r = user adl /\ r_coin r = coin d /\ r_time r = time adl
    /\ position_size r = pos_size p
    /\ r_entry_price r = entry
    /\ account_value_realtime r = account_value st
    /\ total_unrealized_pnl r = sum_unrealized (last_prices s) (positions st)
    /\ total_equity r
       = PrimFloat.add (account_value st)
           (sum_unrealized (last_prices s) (positions st))
    /\ is_negative_equity r = lt0 (total_equity r).
Proof.
  intros Hr.
  destruct (adl_metrics_cases s adl) as [H | [H | [H | (d & st & p & entry & Hb & Hu & Hc & He)]]];
    try congruence.
  exists d, st, p, entry. repeat (split; [assumption |]).
  unfold adl_metrics in Hr. rewrite Hb, Hu, Hc, He in Hr.
  rewrite compute_pnl_percent_eq, compute_leverage_eq in Hr. simpl in Hr.
  injection Hr as <-. simpl. repeat split; reflexivity.
Qed.

Lemma metrics_loop_rows (s : ReplayState) (adls : list Event) (rows : list AdlRecord) :
  metrics_loop s adls = Ok rows ->
  forall r, In r rows -> exists adl, In adl adls /\ adl_metrics s adl = Ok (Some r).
Proof.
  revert rows. induction adls as [| adl rest IH]; intros rows H r Hr; simpl in H.
  - cbv in H. injection H as <-. destruct Hr.
  - destruct (adl_metrics s adl) as [o | e] eqn:Ho; simpl in H; [| discriminate].
    destruct (metrics_loop s rest) as [rs | e] eqn:Hrs; simpl in H; [| discriminate].
    cbv [mret result_ret] in H. injection H as <-. destruct o as [r0 |].
    + destruct Hr as [<- | Hr].
      * exists adl. split; [now left | exact Ho].
      * destruct (IH rs eq_refl r Hr) as (a & Ha & Hm). exists a. split; [now right | exact Hm].
    + destruct (IH rs eq_refl r Hr) as (a & Ha & Hm). exists a. split; [now right | exact Hm].
Qed.

(** X9: Every row of the run is read from the tables as the whole fold left
    them: the account value, the unrealized-PnL aggregate, the equity and the
    negative-equity flag of a row are those of its account at the end of the
    window.  So two rows of the same account always report the same account
    value, aggregate, equity and flag, whenever their fills took place. *)
Theorem rows_report_the_end_of_window_state
  (account_states : gmap string AccountState) (all_events : list Event)
  (rows : list AdlRecord) :
  replay account_states all_events = Ok rows ->
  (forall r, In r rows ->
     exists st,
       working_states (final_state account_states all_events) !! r_user r = Some st
       /\ account_value_realtime r = account_value st
       /\ total_unrealized_pnl r
          = sum_unrealized (last_prices (final_state account_states all_events))
              (positions st)
       /\ total_equity r = PrimFloat.add (account_value st) (total_unrealized_pnl r)
       /\ is_negative_equity r = lt0 (total_equity r))
  /\ (forall r1 r2, In r1 rows -> In r2 rows -> r_user r1 = r_user r2 ->
        account_value_realtime r1 = account_value_realtime r2
        /\ total_unrealized_pnl r1 = total_unrealized_pnl r2
        /\ total_equity r1 = total_equity r2
        /\ is_negative_equity r1 = is_negative_equity r2).
Proof.
  intros Hrun.
  assert (Hone : forall r, In r rows ->
            exists st,
              working_states (final_state account_states all_events) !! r_user r = Some st
              /\ account_value_realtime r = account_value st
              /\ total_unrealized_pnl r
                 = sum_unrealized (last_prices (final_state account_states all_events))
                     (positions st)
              /\ total_equity r = PrimFloat.add (account_value st) (total_unrealized_pnl r)
              /\ is_negative_equity r = lt0 (total_equity r)).
  { intros r Hr.
    destruct (metrics_loop_rows _ _ _ Hrun r Hr) as (adl & _ & Hm).
    destruct (adl_metrics_row _ _ _ Hm)
      as (d & st & p & entry & _ & Hu & _ & _ & Hru & _ & _ & _ & _ & Hav & Htot & Heq & Hneg).
    exists st. rewrite Hru, Htot. auto. }
  split; [exact Hone |].
  intros r1 r2 H1 H2 Hu.
  destruct (Hone r1 H1) as (st1 & Hs1 & Hav1 & Ht1 & He1 & Hn1).
  destruct (Hone r2 H2) as (st2 & Hs2 & Hav2 & Ht2 & He2 & Hn2).
  rewrite Hu in Hs1. assert (st1 = st2) by congruence. subst st2.
  assert (Ht : total_unrealized_pnl r1 = total_unrealized_pnl r2) by congruence.
  assert (He : total_equity r1 = total_equity r2) by congruence.
  repeat split; congruence.
Qed.

Lemma rows_report_the_end_of_window_state_witness :
  exists st,
    working_states (final_state Scenario.snapshot Scenario.events_then_deposit) !! "A"
    = Some st
    /\ 1034%float = account_value st.
Proof.
  assert (Hrun : exists r, replay Scenario.snapshot Scenario.events_then_deposit = Ok [r]
                           /\ r_user r = "A" /\ account_value_realtime r = 1034%float).
  { eexists. split; [vm_compute; reflexivity |]. split; reflexivity. }
  destruct Hrun as (r & Hrun & Hu & Hav).
  destruct (rows_report_the_end_of_window_state _ _ _ Hrun) as [Hone _].
  destruct (Hone r (or_introl eq_refl)) as (st & Hst & Hv & _).
  exists st. rewrite <- Hu, <- Hav. auto.
Defined.

(** ** When the run raises *)

Lemma stored_entry_null_from_snapshot (s : ReplayState) (evs : list Event) (u c : string) :
  stored_entry (working_states (replay_events s evs)) u c = Some None
  <-> stored_entry (working_states s) u c = Some None.
Proof.
  split.
  - intros H. destruct (stored_entry_origin _ _ _ _ _ H) as [H0 | [x Hx]];
      [exact H0 | discriminate].
  - apply stored_entry_replay_events.
Qed.

(** What the loop body does with a forced-deleveraging fill of the window:
    it appends the fill's row, unless the entry price of the fill's position
    is null, and then it raises [TypeError]. *)
Lemma adl_fill_outcome (account_states : gmap string AccountState)
  (all_events : list Event) (adl : Event) :
  In adl (adl_events (events_in_window all_events)) ->
  exists d, body adl = fill d
    /\ ((stored_entry account_states (user adl) (coin d) <> Some None
         /\ exists r, adl_metrics (final_state account_states all_events) adl = Ok (Some r)
                      /\ row_of adl r)
        \/ (stored_entry account_states (user adl) (coin d) = Some None
            /\ adl_metrics (final_state account_states all_events) adl = Raise TypeError)).
Proof.
  intros Hin. apply In_adl_events in Hin as [Hin (d & Hd & _)].
  exists d. split; [exact Hd |].
  destruct (fill_has_entry_after_replay _ (initial_state account_states) adl d Hin Hd)
    as [entry He].
  fold (final_state account_states all_events) in He.
  destruct entry as [x |].
  - left. split.
    + intros Hnull.
      apply (stored_entry_replay_events (events_in_window all_events)
               (initial_state account_states)) in Hnull.
      fold (final_state account_states all_events) in Hnull. congruence.
    + apply stored_entry_Some in He as (st & p & Hu & Hc & Hp).
      destruct (adl_metrics_eq _ adl d st p x Hd Hu Hc Hp) as (r & Hr & Hru & Hrc & Hrt & _).
      exists r. split; [exact Hr |]. unfold row_of. eauto.
  - right. split.
    + now apply (stored_entry_null_from_snapshot (initial_state account_states)
                   (events_in_window all_events)).
    + apply stored_entry_Some in He as (st & p & Hu & Hc & Hp).
      unfold adl_metrics. now rewrite Hd, Hu, Hc, Hp.
Qed.

Lemma metrics_loop_outcomes (s : ReplayState) (adls : list Event) :
  (forall adl, In adl adls ->
     (exists r, adl_metrics s adl = Ok (Some r)) \/ adl_metrics s adl = Raise TypeError) ->
  ((exists rows, metrics_loop s adls = Ok rows)
   /\ forall adl, In adl adls -> exists r, adl_metrics s adl = Ok (Some r))
  \/ (metrics_loop s adls = Raise TypeError
      /\ exists adl, In adl adls /\ adl_metrics s adl = Raise TypeError).
Proof.
  induction adls as [| adl rest IH]; intros Hall; simpl.
  - left. split; [eexists; reflexivity | intros ? []].
  - destruct (Hall adl (or_introl eq_refl)) as [[r Hr] | Hraise].
    + destruct IH as [[[rows Hrows] Hrest] | [Hfail (a & Ha & Hm)]].
      { intros a Ha. apply Hall. now right. }
      * left. split.
        -- exists (r :: rows). now rewrite Hr, Hrows.
        -- intros a [<- | Ha]; eauto.
      * right. split.
        -- now rewrite Hr, Hfail.
        -- exists a. split; [now right | exact Hm].
    + right. split.
      * now rewrite Hraise.
      * exists adl. split; [now left | exact Hraise].
Qed.

(** X10: The run raises exactly when the snapshot holds a null entry price for
    the position of some forced-deleveraging fill of the window, and what it
    raises then is a [TypeError]; on every other input it returns its rows.
    A null entry price of a position no such fill names is harmless. *)
Theorem run_raises_exactly_on_null_entry_price
  (account_states : gmap string AccountState) (all_events : list Event) :
  (replay account_states all_events = Raise TypeError
   <-> exists adl d,
         In adl (adl_events (events_in_window all_events))
         /\ body adl = fill d
         /\ stored_entry account_states (user adl) (coin d) = Some None)
  /\ ((exists rows, replay account_states all_events = Ok rows)
      \/ replay account_states all_events = Raise TypeError).
Proof.
  pose proof (adl_fill_outcome account_states all_events) as Hout.
  destruct (metrics_loop_outcomes (final_state account_states all_events)
              (adl_events (events_in_window all_events)))
    as [[[rows Hrows] Hall] | [Hfail (adl & Hin & Hm)]].
  { intros adl Hin. destruct (Hout adl Hin) as (d & _ & [[_ (r & Hr & _)] | [_ Hr]]); eauto. }
  - split; [| left; exists rows; exact Hrows]. split.
    + unfold replay. rewrite Hrows. discriminate.
    + intros (adl & d & Hin & Hd & Hnull).
      destruct (Hout adl Hin) as (d' & Hd' & [[Hnn _] | [_ Hr]]).
      * assert (d' = d) by congruence. subst d'. contradiction.
      * destruct (Hall adl Hin) as [r Hr']. congruence.
  - split; [| right; exact Hfail]. split.
    + intros _. destruct (Hout adl Hin) as (d & Hd & [[_ (r & Hr & _)] | [Hnull _]]).
      * congruence.
      * exists adl, d. auto.
    + intros _. exact Hfail.
Qed.

(** ** The order of the rows *)

Lemma StronglySorted_filter {A : Type} (R : A -> A -> Prop) (f : A -> bool) (l : list A) :
  StronglySorted R l -> StronglySorted R (List.filter f l).
Proof.
  induction 1 as [| a l Hs IH Hall]; simpl; [constructor |].
  destruct (f a); [| exact IH].
  constructor; [exact IH |].
  rewrite Forall_forall in *. intros x Hx.
  apply list_elem_of_In, filter_In in Hx as [Hx _]. apply Hall, list_elem_of_In, Hx.
Qed.

Lemma adl_events_sorted (all_events : list Event) :
  StronglySorted (fun a b => time a <= time b) (adl_events (events_in_window all_events)).
Proof.
  unfold adl_events, events_in_window.
  do 2 apply StronglySorted_filter. apply sort_by_time_sorted.
Qed.

Lemma metrics_loop_Forall2 (s : ReplayState) (adls : list Event) (rows : list AdlRecord) :
  (forall adl, In adl adls -> adl_metrics s adl <> Ok None) ->
  metrics_loop s adls = Ok rows ->
  Forall2 (fun adl r => adl_metrics s adl = Ok (Some r)) adls rows.
Proof.
  revert rows. induction adls as [| adl rest IH]; intros rows Hall H; simpl in H.
  - cbv in H. injection H as <-. constructor.
  - destruct (adl_metrics s adl) as [[r |] | e] eqn:Ho; simpl in H.
    + destruct (metrics_loop s rest) as [rs | e] eqn:Hrs; simpl in H; [| discriminate].
      cbv [mret result_ret] in H. injection H as <-.
      constructor; [exact Ho |].
      apply IH; [| reflexivity]. intros a Ha. apply Hall. now right.
    + exfalso. apply (Hall adl (or_introl eq_refl)). exact Ho.
    + discriminate.
Qed.

Lemma Forall2_sorted_times (adls : list Event) (rows : list AdlRecord) :
  Forall2 (fun adl r => r_time r = time adl) adls rows ->
  StronglySorted (fun a b => time a <= time b) adls ->
  StronglySorted (fun a b => r_time a <= r_time b) rows.
Proof.
  induction 1 as [| adl r adls rows Hr Hf IH]; intros Hs; [constructor |].
  inversion Hs as [| ? ? Hrest Hall]; subst.
  constructor; [auto |].
  clear IH Hs Hrest. induction Hf as [| a' r' ? ? Hr' ? IH']; constructor.
  - inversion Hall; subst. lia.
  - apply IH'. now inversion Hall.
Qed.

(** X11: When the run returns, its rows are the forced-deleveraging fills of the
    window one for one, in that order: one row for every such fill, none
    skipped, none repeated; their times never decrease along the output and
    all lie between the snapshot time and the window end, however the input
    events were ordered. *)
Theorem rows_follow_the_fills_in_time_order
  (account_states : gmap string AccountState) (all_events : list Event)
  (rows : list AdlRecord) :
  replay account_states all_events = Ok rows ->
  Forall2 row_of (adl_events (events_in_window all_events)) rows
  /\ length rows = length (adl_events (events_in_window all_events))
  /\ StronglySorted (fun a b => r_time a <= r_time b) rows
  /\ (forall r, In r rows -> SNAPSHOT_TIME <= r_time r /\ r_time r <= ADL_END_TIME).
Proof.
  intros Hrun.
  assert (Hf : Forall2 (fun adl r =>
                  adl_metrics (final_state account_states all_events) adl = Ok (Some r))
                 (adl_events (events_in_window all_events)) rows).
  { apply metrics_loop_Forall2; [| exact Hrun].
    intros adl Hin.
    destruct (adl_fill_outcome account_states all_events adl Hin)
      as (d & _ & [[_ (r & Hr & _)] | [_ Hr]]); congruence. }
  assert (Hrow : Forall2 row_of (adl_events (events_in_window all_events)) rows).
  { eapply Forall2_impl; [exact Hf |]. intros adl r Hm.
    destruct (adl_metrics_row _ _ _ Hm) as (d & st & p & entry & Hd & _ & _ & _ & Hu & Hc & Ht & _).
    unfold row_of. eauto. }
  split; [exact Hrow |].
  split; [symmetry; eapply Forall2_length; exact Hrow |].
  split.
  - apply (Forall2_sorted_times (adl_events (events_in_window all_events))).
    + eapply Forall2_impl; [exact Hrow |]. intros adl r (_ & Ht & _). exact Ht.
    + apply adl_events_sorted.
  - intros r Hr.
    destruct (metrics_loop_rows _ _ _ Hrun r Hr) as (adl & Hin & Hm).
    destruct (adl_metrics_row _ _ _ Hm) as (d & st & p & entry & _ & _ & _ & _ & _ & _ & Ht & _).
    apply In_adl_events in Hin as [Hin _].
    apply In_events_in_window in Hin as (_ & Hlo & Hhi). rewrite Ht. auto.
Qed.

Lemma rows_follow_the_fills_in_time_order_witness :
  Forall2 row_of
    (adl_events (events_in_window [Scenario.adl_C; Scenario.funding_A; Scenario.adl_A]))
    [Scenario.expected_record; Scenario.record_C].
Proof.
  assert (Hrun : replay Scenario.snapshot [Scenario.adl_C; Scenario.funding_A; Scenario.adl_A]
                 = Ok [Scenario.expected_record; Scenario.record_C]).
  2: exact (proj1 (rows_follow_the_fills_in_time_order _ _ _ Hrun)).
  vm_compute. reflexivity.
Defined.

(** * Further properties of the sort and the window *)

Lemma insert_by_time_Permutation (e : Event) (l : list Event) :
  Permutation (insert_by_time e l) (e :: l).
Proof.
  induction l as [| y rest IH]; simpl; [reflexivity |].
  destruct (time e <=? time y); [reflexivity |].
  rewrite IH. apply perm_swap.
Qed.

Lemma sort_by_time_Permutation (l : list Event) : Permutation (sort_by_time l) l.
Proof.
  induction l as [| y rest IH]; simpl; [reflexivity |].
  rewrite insert_by_time_Permutation. now constructor.
Qed.

Lemma filter_Permutation {A : Type} (f : A -> bool) (l l' : list A) :
  Permutation l l' -> Permutation (List.filter f l) (List.filter f l').
Proof.
  induction 1 as [| x l l' _ IH | x y l | l l' l'' _ IH1 _ IH2]; simpl.
  - reflexivity.
  - destruct (f x); [now constructor | exact IH].
  - destruct (f x), (f y); try reflexivity. apply perm_swap.
  - now transitivity (List.filter f l').
Qed.

Lemma insert_by_time_same_time (t : Z) (e : Event) (l : list Event) :
  List.filter (fun x => time x =? t) (insert_by_time e l)
  = List.filter (fun x => time x =? t) (e :: l).
Proof.
  induction l as [| y rest IH]; [reflexivity |].
  simpl insert_by_time.
  destruct (Z.leb_spec (time e) (time y)) as [Hle | Hgt]; [reflexivity |].
  simpl. simpl in IH. rewrite IH.
  destruct (Z.eqb_spec (time y) t), (Z.eqb_spec (time e) t); simpl; try reflexivity.
  lia.
Qed.

Lemma sort_by_time_same_time (t : Z) (l : list Event) :
  List.filter (fun x => time x =? t) (sort_by_time l)
  = List.filter (fun x => time x =? t) l.
Proof.
  induction l as [| y rest IH]; [reflexivity |].
  simpl sort_by_time. rewrite insert_by_time_same_time. simpl. now rewrite IH.
Qed.

Lemma filter_filter_comm {A : Type} (f g : A -> bool) (l : list A) :
  List.filter f (List.filter g l) = List.filter g (List.filter f l).
Proof.
  induction l as [| x l IH]; [reflexivity |]. simpl.
  destruct (f x) eqn:Ef, (g x) eqn:Eg; simpl; rewrite ?Ef, ?Eg, IH; reflexivity.
Qed.

(** X12: The list the fold runs over is the loaded events cut to the window and
    put in time order, nothing else: it is sorted by time, it holds exactly
    the in-window events with their multiplicities, and the events that
    share a timestamp keep the order they had in the loaded list. *)
Theorem events_in_window_is_a_stable_sorted_cut (all_events : list Event) :
  StronglySorted (fun a b => time a <= time b) (events_in_window all_events)
  /\ Permutation (events_in_window all_events) (List.filter in_window all_events)
  /\ forall t : Z,
       List.filter (fun x => time x =? t) (events_in_window all_events)
       = List.filter (fun x => time x =? t) (List.filter in_window all_events).
Proof.
  unfold events_in_window. split; [| split].
  - apply StronglySorted_filter, sort_by_time_sorted.
  - apply filter_Permutation, sort_by_time_Permutation.
  - intros t. rewrite filter_filter_comm, sort_by_time_same_time.
    apply filter_filter_comm.
Qed.

(** * Further properties of the extractor *)

(** ** The fill loop *)

Lemma scan_events_cons_pair (t : Z) (u : string) (f : Extractor.RawFill)
  (rest : list Extractor.RawEvent) :
  Extractor.scan_events t (Extractor.Pair u f :: rest)
  = if fill_qualifies f
    then match fill_row t u f with
         | Some r => r :: Extractor.scan_events t rest
         | None => []
         end
    else Extractor.scan_events t rest.
Proof.
  unfold fill_qualifies, fill_row. simpl.
  destruct (Extractor.is_adl_direction (Extractor.dir f)); simpl; [| reflexivity].
  destruct (String.prefix "@" (Extractor.coin f)); simpl; [reflexivity |].
  destruct (Extractor.px f), (Extractor.sz f), (Extractor.startPosition f),
    (Extractor.closedPnl f), (Extractor.fee f); reflexivity.
Qed.

Lemma fill_row_fields (t : Z) (u : string) (f : Extractor.RawFill) (r : Extractor.AdlFill) :
  fill_row t u f = Some r ->
  Extractor.block_time r = t /\ Extractor.a_user r = u
  /\ Extractor.a_coin r = Extractor.coin f
  /\ Extractor.a_direction r = Extractor.dir f
  /\ Extractor.a_notional r = PrimFloat.mul (Extractor.a_size r) (Extractor.a_price r).
Proof.
  unfold fill_row.
  destruct (Extractor.px f), (Extractor.sz f), (Extractor.startPosition f),
    (Extractor.closedPnl f), (Extractor.fee f); try discriminate.
  intros [= <-]. simpl. auto.
Qed.

Lemma In_scan_events_origin (t : Z) (evs : list Extractor.RawEvent) (r : Extractor.AdlFill) :
  In r (Extractor.scan_events t evs) ->
  exists u f, In (Extractor.Pair u f) evs /\ fill_qualifies f = true
              /\ fill_row t u f = Some r.
Proof.
  induction evs as [| [| u f] rest IH]; [intros [] | |].
  - simpl. intros H. destruct (IH H) as (u & f & Hin & Hq & Hr). eauto 7.
  - rewrite scan_events_cons_pair.
    destruct (fill_qualifies f) eqn:Hq.
    + destruct (fill_row t u f) as [r0 |] eqn:Hr0; [| intros []].
      intros [<- | H].
      * exists u, f. split; [now left | auto].
      * destruct (IH H) as (u' & f' & Hin & Hq' & Hr'). exists u', f'.
        split; [now right | auto].
    + intros H. destruct (IH H) as (u' & f' & Hin & Hq' & Hr'). exists u', f'.
      split; [now right | auto].
Qed.

(** X13: Every row the extractor emits comes from a fill whose label contains
    "Auto-Deleveraging" and whose coin does not start with the spot marker
    "@", whatever the label says; and its notional is its size times its
    price. *)
Theorem extracted_rows_are_adl_perp_fills
  (fromisoformat : string -> option Z)
  (lines : list (option Extractor.RawRecord)) (r : Extractor.AdlFill) :
  In r (Extractor.extract_adl_fills fromisoformat lines) ->
  (exists pre post,
     Extractor.a_direction r = (pre ++ "Auto-Deleveraging" ++ post)%string)
  /\ String.prefix "@" (Extractor.a_coin r) = false
  /\ Extractor.a_notional r = PrimFloat.mul (Extractor.a_size r) (Extractor.a_price r).
Proof.
  intros Hin. unfold Extractor.extract_adl_fills in Hin.
  apply in_flat_map in Hin as (line & _ & Hr).
  destruct line as [data |]; simpl in Hr; [| destruct Hr].
  destruct (Extractor.window_time fromisoformat data) as [t |]; [| destruct Hr].
  apply In_scan_events_origin in Hr as (u & f & _ & Hq & Hrow).
  apply fill_row_fields in Hrow as (_ & _ & Hc & Hd & Hn).
  unfold fill_qualifies in Hq. apply andb_true_iff in Hq as [Hadl Hspot].
  rewrite Hc, Hd. split; [| split; [| exact Hn]].
  - now apply contains_spec.
  - now apply negb_true_iff.
Qed.

Lemma extracted_rows_are_adl_perp_fills_witness :
  (exists pre post, "Auto-Deleveraging" = (pre ++ "Auto-Deleveraging" ++ post)%string)
  /\ String.prefix "@" "X" = false
  /\ 180%float = PrimFloat.mul 2%float 90%float.
Proof.
  apply (extracted_rows_are_adl_perp_fills Scenario.fromisoformat_ends
           [None; Some Scenario.record_at_start]
           {| Extractor.block_time := Extractor.ADL_START; Extractor.a_user := "A";
              Extractor.a_coin := "X"; Extractor.a_direction := "Auto-Deleveraging";
              Extractor.a_price := 90%float; Extractor.a_size := 2%float;
              Extractor.a_side := "A"; Extractor.start_position := 2%float;
              Extractor.closed_pnl := (-20)%float; Extractor.a_fee := 1%float;
              Extractor.a_notional := 180%float |}).
  vm_compute. left. reflexivity.
Defined.

(** X14: When no conversion of a qualifying fill raises, the rows of a record are
    exactly its qualifying fills, one row each, in the order of the record;
    malformed events and fills that do not qualify are passed over, and a
    fill that does not qualify is never converted, so its numbers do not
    matter. *)
Theorem scan_events_without_failure (t : Z) (evs : list Extractor.RawEvent) :
  (forall u f, In (Extractor.Pair u f) evs -> fill_qualifies f = true ->
               fill_row t u f <> None) ->
  Extractor.scan_events t evs = flat_map (event_rows t) evs.
Proof.
  induction evs as [| [| u f] rest IH]; intros Hok; [reflexivity | |].
  - simpl. apply IH. intros u f Hin. apply Hok. now right.
  - rewrite scan_events_cons_pair. simpl flat_map. unfold event_rows at 1.
    destruct (fill_qualifies f) eqn:Hq.
    + destruct (fill_row t u f) as [r |] eqn:Hr.
      * simpl. f_equal. apply IH. intros u' f' Hin. apply Hok. now right.
      * exfalso. exact (Hok u f (or_introl eq_refl) Hq Hr).
    + simpl. apply IH. intros u' f' Hin. apply Hok. now right.
Qed.

Lemma scan_events_without_failure_witness :
  Extractor.scan_events 5
    [Extractor.Malformed; Extractor.Pair "S" Scenario.raw_spot_fill;
     Extractor.Pair "A" Scenario.raw_adl_fill; Extractor.Pair "B" Scenario.raw_open_long]
  = flat_map (event_rows 5)
      [Extractor.Malformed; Extractor.Pair "S" Scenario.raw_spot_fill;
       Extractor.Pair "A" Scenario.raw_adl_fill; Extractor.Pair "B" Scenario.raw_open_long].
Proof.
  apply scan_events_without_failure.
  intros u f [H | [H | [H | [H | []]]]]; try discriminate;
    injection H as <- <-; vm_compute; congruence.
Defined.

(** X15: A qualifying fill with a number that does not convert ends its record:
    the rows appended before it stay, and nothing that follows it in the
    record is looked at, not even a well-formed forced-deleveraging fill. *)
Theorem failed_conversion_abandons_the_rest_of_the_record
  (t : Z) (pre rest : list Extractor.RawEvent) (u : string) (f : Extractor.RawFill) :
  fill_qualifies f = true ->
  fill_row t u f = None ->
  Extractor.scan_events t (pre ++ Extractor.Pair u f :: rest)
  = Extractor.scan_events t pre.
Proof.
  intros Hq Hr. induction pre as [| [| u' f'] pre IH].
  - simpl app. rewrite scan_events_cons_pair, Hq, Hr. reflexivity.
  - simpl. exact IH.
  - change ((Extractor.Pair u' f' :: pre) ++ Extractor.Pair u f :: rest)%list
      with (Extractor.Pair u' f' :: (pre ++ Extractor.Pair u f :: rest))%list.
    rewrite !scan_events_cons_pair, IH. reflexivity.
Qed.

Lemma failed_conversion_abandons_the_rest_of_the_record_witness :
  Extractor.scan_events 5
    ([Extractor.Pair "A" Scenario.raw_adl_fill]
     ++ Extractor.Pair "B" Scenario.raw_bad_price
     :: [Extractor.Pair "C" Scenario.raw_adl_fill])
  = Extractor.scan_events 5 [Extractor.Pair "A" Scenario.raw_adl_fill].
Proof.
  apply failed_conversion_abandons_the_rest_of_the_record; reflexivity.
Defined.

(** ** The time string *)

Lemma rsplit_dot_cons_None (c : ascii) (s : string) :
  Extractor.rsplit_dot (String c s) = None
  <-> c <> "."%char /\ Extractor.rsplit_dot s = None.
Proof.
  simpl. destruct (Extractor.rsplit_dot s) as [[b f] |].
  - split; [discriminate | intros [_ H]; discriminate].
  - destruct (Ascii.eqb_spec c "."%char) as [-> | Hne].
    + split; [discriminate | intros [H _]; contradiction].
    + split; auto.
Qed.

Lemma prefix_dot_cons (c : ascii) (s : string) :
  String.prefix "." (String c s) = false <-> c <> "."%char.
Proof.
  destruct (String.prefix "." (String c s)) eqn:E.
  - apply prefix_spec in E as [post E]. injection E as -> _.
    split; [discriminate | intros H; now contradiction H].
  - split; [| reflexivity]. intros _ ->.
    assert (H : String.prefix "." (String "."%char s) = true)
      by (apply prefix_spec; exists s; reflexivity).
    congruence.
Qed.

Lemma rsplit_dot_None_contains (s : string) :
  Extractor.rsplit_dot s = None <-> contains "." s = false.
Proof.
  induction s as [| c s IH].
  - split; reflexivity.
  - rewrite rsplit_dot_cons_None, IH.
    change (contains "." (String c s))
      with (String.prefix "." (String c s) || contains "." s).
    rewrite orb_false_iff, prefix_dot_cons. reflexivity.
Qed.

Lemma rsplit_dot_cons (c : ascii) (s : string) :
  Extractor.rsplit_dot (String c s)
  = match Extractor.rsplit_dot s with
    | Some (base, frac) => Some (String c base, frac)
    | None => if Ascii.eqb c "."%char then Some (EmptyString, s) else None
    end.
Proof. reflexivity. Qed.

Lemma rsplit_dot_join (b f : string) :
  Extractor.rsplit_dot f = None ->
  Extractor.rsplit_dot (b ++ "." ++ f)%string = Some (b, f).
Proof.
  intros Hf. induction b as [| c b IH].
  - change (EmptyString ++ "." ++ f)%string with (String "."%char f).
    rewrite rsplit_dot_cons, Hf. reflexivity.
  - change (String c b ++ "." ++ f)%string with (String c (b ++ "." ++ f)%string).
    rewrite rsplit_dot_cons, IH. reflexivity.
Qed.

Lemma rsplit_dot_split (s b f : string) :
  Extractor.rsplit_dot s = Some (b, f) ->
  s = (b ++ "." ++ f)%string /\ Extractor.rsplit_dot f = None.
Proof.
  revert b. induction s as [| c s IH]; intros b; simpl; [discriminate |].
  destruct (Extractor.rsplit_dot s) as [[b' f'] |] eqn:E.
  - intros [= <- <-]. destruct (IH b' eq_refl) as [-> Hf]. auto.
  - destruct (Ascii.eqb_spec c "."%char) as [-> | _]; [| discriminate].
    intros [= <- <-]. auto.
Qed.

(** X16: [rsplit_dot] is Python's ['.' in s] and [s.rsplit('.', 1)]: it finds a
    split exactly when the string contains a dot, the two parts joined by a
    dot give the string back, the second part has no dot, and a string built
    as [base + '.' + frac] with a dot-free [frac] splits back into [base]
    and [frac]. *)
Theorem rsplit_dot_is_the_split_at_the_last_dot :
  (forall s : string, Extractor.rsplit_dot s = None <-> contains "." s = false)
  /\ (forall s b f : string,
        Extractor.rsplit_dot s = Some (b, f) <->
        s = (b ++ "." ++ f)%string /\ contains "." f = false).
Proof.
  split; [exact rsplit_dot_None_contains |].
  intros s b f. rewrite <- rsplit_dot_None_contains. split.
  - apply rsplit_dot_split.
  - intros [-> Hf]. now apply rsplit_dot_join.
Qed.

Lemma length_substring0 (n : nat) (s : string) :
  String.length (String.substring 0 n s) = Nat.min n (String.length s).
Proof.
  revert s. induction n as [| n IH]; intros [| c s]; simpl; auto.
Qed.

Lemma length_ljust0 (n : nat) (s : string) :
  String.length (Extractor.ljust0 n s) = Nat.max n (String.length s).
Proof.
  revert s. induction n as [| n IH]; intros [| c s]; simpl; auto.
  - rewrite IH. simpl. lia.
Qed.

Lemma nodot_substring0 (n : nat) (s : string) :
  Extractor.rsplit_dot s = None ->
  Extractor.rsplit_dot (String.substring 0 n s) = None.
Proof.
  revert s. induction n as [| n IH]; intros [| c s] H; try reflexivity.
  change (String.substring 0 (S n) (String c s))
    with (String c (String.substring 0 n s)).
  apply rsplit_dot_cons_None in H as [Hc Hs].
  apply rsplit_dot_cons_None. auto.
Qed.

Lemma nodot_ljust0 (n : nat) (s : string) :
  Extractor.rsplit_dot s = None ->
  Extractor.rsplit_dot (Extractor.ljust0 n s) = None.
Proof.
  revert s. induction n as [| n IH]; intros [| c s] H; try exact H.
  - change (Extractor.ljust0 (S n) EmptyString)
      with (String "0"%char (Extractor.ljust0 n EmptyString)).
    apply rsplit_dot_cons_None. split; [discriminate | now apply IH].
  - change (Extractor.ljust0 (S n) (String c s))
      with (String c (Extractor.ljust0 n s)).
    apply rsplit_dot_cons_None in H as [Hc Hs].
    apply rsplit_dot_cons_None. auto.
Qed.

Lemma substring0_app (f tail : string) :
  String.substring 0 (String.length f) (f ++ tail)%string = f.
Proof.
  induction f as [| c f IH]; simpl.
  - destruct tail; reflexivity.
  - now rewrite IH.
Qed.

Lemma substring0_all (n : nat) (s : string) :
  (String.length s <= n)%nat -> String.substring 0 n s = s.
Proof.
  revert s. induction n as [| n IH]; intros [| c s] H; simpl in *; try reflexivity.
  - lia.
  - rewrite IH by lia. reflexivity.
Qed.

Lemma ljust0_all (n : nat) (s : string) :
  (n <= String.length s)%nat -> Extractor.ljust0 n s = s.
Proof.
  revert s. induction n as [| n IH]; intros [| c s] H; simpl in *; try reflexivity.
  - lia.
  - rewrite IH by lia. reflexivity.
Qed.

Lemma normalize_fraction_split (s b f : string) :
  Extractor.rsplit_dot s = Some (b, f) ->
  Extractor.normalize_fraction s
  = (b ++ "." ++ Extractor.ljust0 6 (String.substring 0 6 f))%string.
Proof. intros H. unfold Extractor.normalize_fraction. now rewrite H. Qed.

Lemma string_app_empty (s : string) : (s ++ EmptyString)%string = s.
Proof.
  induction s as [| c s IH]; [reflexivity |].
  change (String c (s ++ EmptyString)%string = String c s). now rewrite IH.
Qed.

Lemma ljust0_pads_with_zeros (n : nat) (s : string) :
  Extractor.ljust0 n s = (s ++ zeros (n - String.length s))%string.
Proof.
  revert s. induction n as [| n IH]; intros [| c s].
  - reflexivity.
  - symmetry. apply string_app_empty.
  - change (String "0"%char (Extractor.ljust0 n EmptyString)
            = String "0"%char (zeros n)).
    rewrite IH. simpl String.length. now rewrite Nat.sub_0_r.
  - change (String c (Extractor.ljust0 n s)
            = String c (s ++ zeros (n - String.length s))%string).
    now rewrite IH.
Qed.

(** X17: The fraction of a second is brought to exactly six characters: a time
    string without a dot is left alone; otherwise what follows the last dot
    is cut after its sixth character, so that anything beyond it, further
    digits or a time-zone suffix alike, is dropped, and a shorter fraction
    keeps its characters and is padded on the right with "0" up to six.
    Normalizing twice changes nothing more. *)
Theorem normalize_fraction_keeps_six_characters :
  (forall s : string, contains "." s = false -> Extractor.normalize_fraction s = s)
  /\ (forall b f6 tail : string,
        String.length f6 = 6%nat -> contains "." (f6 ++ tail)%string = false ->
        Extractor.normalize_fraction (b ++ "." ++ f6 ++ tail)%string
        = (b ++ "." ++ f6)%string)
  /\ (forall s b f : string,
        Extractor.rsplit_dot (Extractor.normalize_fraction s) = Some (b, f) ->
        String.length f = 6%nat)
  /\ (forall s : string,
        Extractor.normalize_fraction (Extractor.normalize_fraction s)
        = Extractor.normalize_fraction s)
  /\ (forall b f : string,
        contains "." f = false ->
        Extractor.normalize_fraction (b ++ "." ++ f)%string
        = (b ++ "." ++ String.substring 0 6 f ++ zeros (6 - String.length f))%string)
  /\ (forall b f : string,
        contains "." f = false -> (String.length f <= 6)%nat ->
        Extractor.normalize_fraction (b ++ "." ++ f)%string
        = (b ++ "." ++ f ++ zeros (6 - String.length f))%string).
Proof.
  assert (Hpad : forall b f : string,
            contains "." f = false ->
            Extractor.normalize_fraction (b ++ "." ++ f)%string
            = (b ++ "." ++ String.substring 0 6 f
               ++ zeros (6 - String.length f))%string).
  { intros b f Hf. apply rsplit_dot_None_contains in Hf.
    rewrite (normalize_fraction_split _ b f (rsplit_dot_join b f Hf)).
    rewrite ljust0_pads_with_zeros, length_substring0.
    replace (6 - Nat.min 6 (String.length f))%nat with (6 - String.length f)%nat by lia.
    reflexivity. }
  assert (Hshape : forall s b f, Extractor.rsplit_dot s = Some (b, f) ->
            let f6 := Extractor.ljust0 6 (String.substring 0 6 f) in
            Extractor.normalize_fraction s = (b ++ "." ++ f6)%string
            /\ String.length f6 = 6%nat
            /\ Extractor.rsplit_dot f6 = None).
  { intros s b f H. cbv zeta. split; [now apply normalize_fraction_split |].
    split.
    - rewrite length_ljust0, length_substring0. lia.
    - apply nodot_ljust0, nodot_substring0. now apply rsplit_dot_split in H. }
  split; [| split; [| split; [| split; [| split]]]].
  - intros s Hs. apply rsplit_dot_None_contains in Hs.
    unfold Extractor.normalize_fraction. now rewrite Hs.
  - intros b f6 tail Hlen Hnd. apply rsplit_dot_None_contains in Hnd.
    rewrite (normalize_fraction_split _ b (f6 ++ tail)%string)
      by now apply rsplit_dot_join.
    replace (String.substring 0 6 (f6 ++ tail)%string) with f6
      by (rewrite <- Hlen; symmetry; apply substring0_app).
    rewrite ljust0_all by lia. reflexivity.
  - intros s b f H.
    destruct (Extractor.rsplit_dot s) as [[b0 f0] |] eqn:E.
    + destruct (Hshape s b0 f0 E) as (Hn & Hl & Hnd).
      rewrite Hn, (rsplit_dot_join b0 _ Hnd) in H. congruence.
    + unfold Extractor.normalize_fraction in H. rewrite E in H. congruence.
  - intros s.
    destruct (Extractor.rsplit_dot s) as [[b0 f0] |] eqn:E.
    + destruct (Hshape s b0 f0 E) as (Hn & Hl & Hnd).
      rewrite Hn. rewrite (normalize_fraction_split _ b0 _ (rsplit_dot_join b0 _ Hnd)).
      rewrite substring0_all, ljust0_all by lia. reflexivity.
    + unfold Extractor.normalize_fraction at 2. rewrite E.
      unfold Extractor.normalize_fraction. now rewrite E.
  - exact Hpad.
  - intros b f Hf Hlen. rewrite (Hpad b f Hf), substring0_all by exact Hlen.
    reflexivity.
Qed.

Lemma normalize_fraction_keeps_six_characters_witness :
  Extractor.normalize_fraction "2025-10-10T21:15:00.123456789+02:00"
  = "2025-10-10T21:15:00.123456"
  /\ Extractor.normalize_fraction "2025-10-10T21:15:00" = "2025-10-10T21:15:00"
  /\ Extractor.normalize_fraction "2025-10-10T21:15:00.12"
     = "2025-10-10T21:15:00.120000".
Proof.
  destruct normalize_fraction_keeps_six_characters as (Hnone & Hcut & _ & _ & _ & Hshort).
  split; [| split].
  - apply (Hcut "2025-10-10T21:15:00" "123456" "789+02:00"); reflexivity.
  - apply Hnone. reflexivity.
  - apply (Hshort "2025-10-10T21:15:00" "12"); [reflexivity | simpl; lia].
Defined.

(** * Properties of the snapshot loading *)

(** ** The market name *)

Lemma replace_from_skip (old new p s : string) :
  replace_from old new (String.length p) (p ++ s)%string = replace_from old new 0 s.
Proof.
  induction p as [| c p IH]; simpl.
  - destruct s; reflexivity.
  - exact IH.
Qed.

Lemma contains_cons_false (n : string) (c : ascii) (s : string) :
  contains n (String c s) = false ->
  String.prefix n (String c s) = false /\ contains n s = false.
Proof.
  change (contains n (String c s)) with (String.prefix n (String c s) || contains n s).
  apply orb_false_iff.
Qed.

Lemma replace_from_absent (old new s : string) :
  contains old s = false -> replace_from old new 0 s = s.
Proof.
  induction s as [| c s IH]; intros H; [reflexivity |].
  apply contains_cons_false in H as [Hp Hs].
  change (replace_from old new 0 (String c s))
    with (if String.prefix old (String c s)
          then (new ++ replace_from old new (String.length old - 1) s)%string
          else String c (replace_from old new 0 s)).
  rewrite Hp, IH by exact Hs. reflexivity.
Qed.

(** X18: The coin of a market is its name with the "hyperliquid:" marker taken
    out: a name without the marker is its own coin, and the name made of the
    marker and a marker-free coin gives that coin back. *)
Theorem market_coin_strips_the_marker (c : string) :
  contains "hyperliquid:" c = false ->
  market_coin c = c /\ market_coin ("hyperliquid:" ++ c)%string = c.
Proof.
  intros Hc. unfold market_coin. split; [now apply replace_from_absent |].
  change ("hyperliquid:" ++ c)%string
    with (String "h"%char ("yperliquid:" ++ c)%string).
  change (replace_from "hyperliquid:" "" 0 (String "h"%char ("yperliquid:" ++ c)%string))
    with (if String.prefix "hyperliquid:" (String "h"%char ("yperliquid:" ++ c)%string)
          then (EmptyString
                ++ replace_from "hyperliquid:" "" (String.length "yperliquid:")
                     ("yperliquid:" ++ c)%string)%string
          else String "h"%char (replace_from "hyperliquid:" "" 0 ("yperliquid:" ++ c)%string)).
  assert (Hp : String.prefix "hyperliquid:" (String "h"%char ("yperliquid:" ++ c)%string) = true)
    by (apply prefix_spec; exists c; reflexivity).
  rewrite Hp, replace_from_skip. simpl append. now apply replace_from_absent.
Qed.

Lemma market_coin_strips_the_marker_witness :
  market_coin "BTC" = "BTC" /\ market_coin ("hyperliquid:" ++ "BTC")%string = "BTC".
Proof.
  apply market_coin_strips_the_marker. reflexivity.
Defined.

(** ** The account map *)

Lemma build_account_states_flat (account_values : list SnapshotAccount)
  (positions_by_market : list SnapshotMarket) :
  build_account_states account_values positions_by_market
  = fold_left (fun states item => add_position (fst item) states (snd item))
      (snapshot_positions positions_by_market)
      (fold_left add_account account_values ∅).
Proof.
  unfold build_account_states, snapshot_positions.
  generalize (fold_left add_account account_values ∅).
  induction positions_by_market as [| m rest IH]; intros states; [reflexivity |].
  simpl. rewrite fold_left_app, IH. f_equal.
  unfold add_market. generalize (market_coin (market_name m)). intros c.
  revert states. induction (market_positions m) as [| p ps IHp]; intros states;
    [reflexivity |].
  simpl. apply IHp.
Qed.

Lemma lookup_add_accounts (account_values : list SnapshotAccount)
  (states : gmap string AccountState) (u : string) :
  fold_left add_account account_values states !! u
  = fold_left (account_entry_step u) account_values (states !! u).
Proof.
  revert states. induction account_values as [| acc rest IH]; intros states;
    [reflexivity |].
  simpl. rewrite IH. f_equal. unfold add_account, account_entry_step.
  destruct (decide (sa_user acc = u)) as [<- | Hne].
  - apply lookup_insert_eq.
  - now apply lookup_insert_ne.
Qed.

Lemma lookup_add_position (c : string) (states : gmap string AccountState)
  (pos : SnapshotPosition) (u : string) :
  add_position c states pos !! u = position_entry_step u (states !! u) (c, pos).
Proof.
  unfold add_position, position_entry_step. simpl.
  destruct (decide (sp_user pos = u)) as [<- | Hne].
  - rewrite lookup_alter_eq.
    destruct (states !! sp_user pos) as [st |] eqn:E; simpl.
    + now rewrite E.
    + now rewrite lookup_insert_eq.
  - rewrite lookup_alter_ne by exact Hne.
    destruct (states !! sp_user pos); [reflexivity |].
    now apply lookup_insert_ne.
Qed.

Lemma lookup_add_positions (items : list (string * SnapshotPosition))
  (states : gmap string AccountState) (u : string) :
  fold_left (fun states item => add_position (fst item) states (snd item)) items states !! u
  = fold_left (position_entry_step u) items (states !! u).
Proof.
  revert states. induction items as [| [c pos] rest IH]; intros states; [reflexivity |].
  simpl. rewrite IH. f_equal. apply lookup_add_position.
Qed.

Lemma lookup_build_account_states (account_values : list SnapshotAccount)
  (positions_by_market : list SnapshotMarket) (u : string) :
  build_account_states account_values positions_by_market !! u
  = fold_left (position_entry_step u) (snapshot_positions positions_by_market)
      (fold_left (account_entry_step u) account_values None).
Proof.
  rewrite build_account_states_flat, lookup_add_positions, lookup_add_accounts.
  reflexivity.
Qed.

Lemma account_entries_is_Some (u : string) (accs : list SnapshotAccount)
  (o : option AccountState) :
  is_Some (fold_left (account_entry_step u) accs o)
  <-> is_Some o \/ exists acc, In acc accs /\ sa_user acc = u.
Proof.
  revert o. induction accs as [| acc rest IH]; intros o; simpl.
  - split; [auto | intros [H | (a & [] & _)]; exact H].
  - rewrite IH. unfold account_entry_step.
    destruct (decide (sa_user acc = u)) as [Heq | Hne].
    + split; [| eauto]. intros _. right. exists acc. auto.
    + split.
      * intros [H | (a & Ha & Hu)]; [auto | right; eauto].
      * intros [H | (a & [<- | Ha] & Hu)]; [auto | contradiction | right; eauto].
Qed.

Lemma position_entries_is_Some (u : string) (items : list (string * SnapshotPosition))
  (o : option AccountState) :
  is_Some (fold_left (position_entry_step u) items o)
  <-> is_Some o \/ exists item, In item items /\ sp_user (snd item) = u.
Proof.
  revert o. induction items as [| item rest IH]; intros o; simpl.
  - split; [auto | intros [H | (a & [] & _)]; exact H].
  - rewrite IH. unfold position_entry_step.
    destruct (decide (sp_user (snd item) = u)) as [Heq | Hne].
    + split; [| eauto]. intros _. right. exists item. auto.
    + split.
      * intros [H | (a & Ha & Hu)]; [auto | right; eauto].
      * intros [H | (a & [<- | Ha] & Hu)]; [auto | contradiction | right; eauto].
Qed.

Lemma account_entries_snapshot_time (u : string) (accs : list SnapshotAccount)
  (o : option AccountState) (st : AccountState) :
  (forall st0, o = Some st0 -> snapshot_time st0 = SNAPSHOT_TIME) ->
  fold_left (account_entry_step u) accs o = Some st ->
  snapshot_time st = SNAPSHOT_TIME.
Proof.
  revert o. induction accs as [| acc rest IH]; intros o Ho H; simpl in H; [auto |].
  eapply IH; [| exact H]. intros st0 Hst0.
  unfold account_entry_step in Hst0.
  destruct (decide (sa_user acc = u)); [| auto].
  injection Hst0 as <-. reflexivity.
Qed.

Lemma position_entries_snapshot_time (u : string) (items : list (string * SnapshotPosition))
  (o : option AccountState) (st : AccountState) :
  (forall st0, o = Some st0 -> snapshot_time st0 = SNAPSHOT_TIME) ->
  fold_left (position_entry_step u) items o = Some st ->
  snapshot_time st = SNAPSHOT_TIME.
Proof.
  revert o. induction items as [| item rest IH]; intros o Ho H; simpl in H; [auto |].
  eapply IH; [| exact H]. intros st0 Hst0.
  unfold position_entry_step in Hst0.
  destruct (decide (sp_user (snd item) = u)); [| auto].
  injection Hst0 as <-. simpl. destruct o as [st1 |]; simpl; [auto | reflexivity].
Qed.

(** X19: The accounts of the snapshot are the users of the account-value file
    and the users of the positions, no others, and every one of them carries
    the snapshot time. *)
Theorem snapshot_accounts_are_the_listed_users
  (account_values : list SnapshotAccount) (positions_by_market : list SnapshotMarket)
  (u : string) :
  (is_Some (build_account_states account_values positions_by_market !! u)
   <-> (exists acc, In acc account_values /\ sa_user acc = u)
       \/ (exists item, In item (snapshot_positions positions_by_market)
                        /\ sp_user (snd item) = u))
  /\ (forall st,
        build_account_states account_values positions_by_market !! u = Some st ->
        snapshot_time st = SNAPSHOT_TIME).
Proof.
  rewrite lookup_build_account_states. split.
  - rewrite position_entries_is_Some, account_entries_is_Some. split.
    + intros [[H | H] | H]; auto. destruct H as [? H]. discriminate.
    + intros [H | H]; auto.
  - intros st H.
    apply (position_entries_snapshot_time u _ _ st) in H; [exact H |].
    intros st0 H0.
    apply (account_entries_snapshot_time u _ _ st0) in H0; [exact H0 |].
    discriminate.
Qed.

Lemma account_entries_none (u : string) (accs : list SnapshotAccount)
  (o : option AccountState) :
  (forall a, In a accs -> sa_user a <> u) ->
  fold_left (account_entry_step u) accs o = o.
Proof.
  revert o. induction accs as [| acc rest IH]; intros o Hno; [reflexivity |].
  simpl. rewrite IH by (intros a Ha; apply Hno; now right).
  unfold account_entry_step.
  destruct (decide (sa_user acc = u)) as [Heq | _]; [| reflexivity].
  contradiction (Hno acc (or_introl eq_refl)).
Qed.

Lemma position_entries_none (u : string) (items : list (string * SnapshotPosition))
  (o : option AccountState) :
  (forall i, In i items -> sp_user (snd i) <> u) ->
  fold_left (position_entry_step u) items o = o.
Proof.
  revert o. induction items as [| item rest IH]; intros o Hno; [reflexivity |].
  simpl. rewrite IH by (intros a Ha; apply Hno; now right).
  unfold position_entry_step.
  destruct (decide (sp_user (snd item) = u)) as [Heq | _]; [| reflexivity].
  contradiction (Hno item (or_introl eq_refl)).
Qed.

Lemma account_entry_step_same (o : option AccountState) (acc : SnapshotAccount) :
  account_entry_step (sa_user acc) o acc
  = Some (snapshot_account (sa_account_value acc)).
Proof.
  unfold account_entry_step.
  destruct (decide (sa_user acc = sa_user acc)); [reflexivity | contradiction].
Qed.

Lemma position_entry_step_same (o : option AccountState)
  (item : string * SnapshotPosition) :
  position_entry_step (sp_user (snd item)) o item
  = Some (set_position (fst item) (snapshot_position (snd item))
            (default (snapshot_account (sp_account_value (snd item))) o)).
Proof.
  unfold position_entry_step.
  destruct (decide (sp_user (snd item) = sp_user (snd item))); [reflexivity | contradiction].
Qed.

Lemma position_entries_value (u : string) (items : list (string * SnapshotPosition))
  (st : AccountState) :
  exists st',
    fold_left (position_entry_step u) items (Some st) = Some st'
    /\ account_value st' = account_value st.
Proof.
  revert st. induction items as [| item rest IH]; intros st; simpl; [eauto |].
  unfold position_entry_step at 2.
  destruct (decide (sp_user (snd item) = u)); [| apply IH].
  destruct (IH (set_position (fst item) (snapshot_position (snd item)) st))
    as (st' & Hst' & Hv).
  exists st'. simpl. split; [exact Hst' | exact Hv].
Qed.

(** X20: The account value of a snapshot account comes from the account-value
    file whenever the user is listed there (its last entry wins), whatever
    account value its positions carry; only for a user the file does not
    list is it the account value carried by the user's first position. *)
Theorem snapshot_account_value_source
  (account_values : list SnapshotAccount) (positions_by_market : list SnapshotMarket) :
  (forall pre acc post,
     account_values = (pre ++ acc :: post)%list ->
     (forall a, In a post -> sa_user a <> sa_user acc) ->
     exists st,
       build_account_states account_values positions_by_market !! sa_user acc = Some st
       /\ account_value st = sa_account_value acc)
  /\ (forall pre item post,
        snapshot_positions positions_by_market = (pre ++ item :: post)%list ->
        (forall a, In a account_values -> sa_user a <> sp_user (snd item)) ->
        (forall i, In i pre -> sp_user (snd i) <> sp_user (snd item)) ->
        exists st,
          build_account_states account_values positions_by_market !! sp_user (snd item)
          = Some st
          /\ account_value st = sp_account_value (snd item)).
Proof.
  split.
  - intros pre acc post -> Hpost.
    rewrite lookup_build_account_states.
    change (pre ++ acc :: post)%list with (pre ++ [acc] ++ post)%list.
    rewrite !fold_left_app, (account_entries_none _ post) by exact Hpost.
    simpl. rewrite account_entry_step_same.
    destruct (position_entries_value (sa_user acc)
                (snapshot_positions positions_by_market)
                (snapshot_account (sa_account_value acc))) as (st & Hst & Hv).
    exists st. split; [exact Hst | exact Hv].
  - intros pre item post Hitems Havs Hpre.
    rewrite lookup_build_account_states, Hitems.
    rewrite account_entries_none by exact Havs.
    change (pre ++ item :: post)%list with (pre ++ [item] ++ post)%list.
    rewrite !fold_left_app, (position_entries_none _ pre) by exact Hpre.
    simpl. rewrite position_entry_step_same. simpl.
    destruct (position_entries_value (sp_user (snd item)) post
                (set_position (fst item) (snapshot_position (snd item))
                   (snapshot_account (sp_account_value (snd item)))))
      as (st & Hst & Hv).
    exists st. split; [exact Hst | exact Hv].
Qed.

Lemma snapshot_account_value_source_witness :
  (exists st,
     build_account_states Scenario.account_values Scenario.positions_by_market !! "A"
     = Some st /\ account_value st = 1000%float)
  /\ (exists st,
        build_account_states Scenario.account_values Scenario.positions_by_market !! "D"
        = Some st /\ account_value st = 40%float).
Proof.
  destruct (snapshot_account_value_source Scenario.account_values
              Scenario.positions_by_market) as [Hfile Hpos].
  split.
  - apply (Hfile [] {| sa_user := "A"; sa_account_value := 1000%float |}
             [{| sa_user := "B"; sa_account_value := 250%float |}] eq_refl).
    intros a [<- | []]. discriminate.
  - apply (Hpos
             [("X", {| sp_user := "A"; sp_account_value := 999%float; sp_size := 2%float;
                       sp_entry_price := Some 100%float; sp_notional_size := 200%float |})]
             ("X", {| sp_user := "D"; sp_account_value := 40%float; sp_size := (-1)%float;
                      sp_entry_price := None; sp_notional_size := 100%float |})
             [("Y", {| sp_user := "D"; sp_account_value := 41%float; sp_size := 5%float;
                       sp_entry_price := Some 7%float; sp_notional_size := 35%float |})]).
    + vm_compute. reflexivity.
    + intros a [<- | [<- | []]]; discriminate.
    + intros i [<- | []]. discriminate.
Defined.

Lemma position_entries_keep (u c : string) (items : list (string * SnapshotPosition))
  (st : AccountState) :
  (forall i, In i items -> ~ (sp_user (snd i) = u /\ fst i = c)) ->
  exists st',
    fold_left (position_entry_step u) items (Some st) = Some st'
    /\ dict_get c (positions st') = dict_get c (positions st).
Proof.
  revert st. induction items as [| item rest IH]; intros st Hno; simpl; [eauto |].
  assert (Hrest : forall i, In i rest -> ~ (sp_user (snd i) = u /\ fst i = c))
    by (intros i Hi; apply Hno; now right).
  unfold position_entry_step at 2.
  destruct (decide (sp_user (snd item) = u)) as [Hu | _]; [| now apply IH].
  destruct (IH (set_position (fst item) (snapshot_position (snd item)) st) Hrest)
    as (st' & Hst' & Hget).
  exists st'. split; [exact Hst' |]. rewrite Hget. simpl.
  apply dict_get_set_other. intros Hc.
  exact (Hno item (or_introl eq_refl) (conj Hu Hc)).
Qed.

(** X21: The position entry of an account for a coin holds the size, entry price
    and notional of the last snapshot position of that user in a market of
    that coin: a later position of the same user and coin replaces an
    earlier one whole. *)
Theorem snapshot_position_is_the_last_listed
  (account_values : list SnapshotAccount) (positions_by_market : list SnapshotMarket)
  (pre post : list (string * SnapshotPosition)) (item : string * SnapshotPosition) :
  snapshot_positions positions_by_market = (pre ++ item :: post)%list ->
  (forall i, In i post -> ~ (sp_user (snd i) = sp_user (snd item) /\ fst i = fst item)) ->
  stored_position (build_account_states account_values positions_by_market)
    (sp_user (snd item)) (fst item)
  = Some (snapshot_position (snd item)).
Proof.
  intros Hitems Hpost. unfold stored_position.
  rewrite lookup_build_account_states, Hitems.
  change (pre ++ item :: post)%list with (pre ++ [item] ++ post)%list.
  rewrite !fold_left_app. simpl. rewrite position_entry_step_same.
  match goal with
  | |- context [fold_left _ post (Some ?st0)] =>
      destruct (position_entries_keep (sp_user (snd item)) (fst item) post st0 Hpost)
        as (st' & Hst' & Hget)
  end.
  rewrite Hst', Hget. simpl. apply dict_get_set_same.
Qed.

Lemma snapshot_position_is_the_last_listed_witness :
  stored_position
    (build_account_states Scenario.account_values Scenario.positions_by_market) "D" "X"
  = Some {| pos_size := (-1)%float; entry_price := None; notional := 100%float |}.
Proof.
  apply (snapshot_position_is_the_last_listed Scenario.account_values
           Scenario.positions_by_market
           [("X", {| sp_user := "A"; sp_account_value := 999%float; sp_size := 2%float;
                     sp_entry_price := Some 100%float; sp_notional_size := 200%float |})]
           [("Y", {| sp_user := "D"; sp_account_value := 41%float; sp_size := 5%float;
                     sp_entry_price := Some 7%float; sp_notional_size := 35%float |})]
           ("X", {| sp_user := "D"; sp_account_value := 40%float; sp_size := (-1)%float;
                    sp_entry_price := None; sp_notional_size := 100%float |})).
  - vm_compute. reflexivity.
  - intros i [<- | []] [_ Hc]. discriminate.
Defined.

(** ** Null entry prices *)

Lemma dict_set_Forall {V : Type} (P : string * V -> Prop) (k : string) (v : V)
  (d : list (string * V)) :
  (forall k', P (k', v)) -> Forall P d -> Forall P (dict_set k v d).
Proof.
  intros Hv. induction 1 as [| [k0 v0] rest H0 Hrest IH]; simpl.
  - constructor; [apply Hv | constructor].
  - destruct (String.eqb k k0); constructor; auto.
Qed.

Lemma position_entries_set (u : string) (items : list (string * SnapshotPosition))
  (o : option AccountState) (st : AccountState) :
  (forall i, In i items -> is_Some (sp_entry_price (snd i))) ->
  (forall st0, o = Some st0 ->
     Forall (fun item => is_Some (entry_price (snd item))) (positions st0)) ->
  fold_left (position_entry_step u) items o = Some st ->
  Forall (fun item => is_Some (entry_price (snd item))) (positions st).
Proof.
  revert o. induction items as [| item rest IH]; intros o Hall Ho H; simpl in H; [auto |].
  eapply IH; [| | exact H].
  - intros i Hi. apply Hall. now right.
  - intros st0 Hst0. unfold position_entry_step in Hst0.
    destruct (decide (sp_user (snd item) = u)); [| auto].
    injection Hst0 as <-. simpl.
    apply dict_set_Forall.
    + intros k'. simpl. apply Hall. now left.
    + destruct o as [st1 |]; simpl; [auto | constructor].
Qed.

Lemma account_entries_no_positions (u : string) (accs : list SnapshotAccount)
  (st : AccountState) :
  fold_left (account_entry_step u) accs None = Some st -> positions st = [].
Proof.
  assert (Hgen : forall o,
            (forall st0, o = Some st0 -> positions st0 = []) ->
            fold_left (account_entry_step u) accs o = Some st -> positions st = []).
  { induction accs as [| acc rest IH]; intros o Ho H; simpl in H; [auto |].
    eapply IH; [| exact H]. intros st0 Hst0. unfold account_entry_step in Hst0.
    destruct (decide (sa_user acc = u)); [| auto].
    injection Hst0 as <-. reflexivity. }
  apply Hgen. discriminate.
Qed.

(** X22: When no position of the snapshot files has a null entry price, no
    position entry of the built account map has one, and then the run over
    any events does not raise: it returns its rows. *)
Theorem snapshot_without_null_entry_price_runs
  (account_values : list SnapshotAccount) (positions_by_market : list SnapshotMarket) :
  (forall item, In item (snapshot_positions positions_by_market) ->
                is_Some (sp_entry_price (snd item))) ->
  entries_set (build_account_states account_values positions_by_market)
  /\ forall all_events,
       exists rows,
         replay (build_account_states account_values positions_by_market) all_events
         = Ok rows.
Proof.
  intros Hall.
  assert (Hset : entries_set (build_account_states account_values positions_by_market)).
  { unfold entries_set. apply map_Forall_lookup_2. intros u st Hst.
    rewrite lookup_build_account_states in Hst.
    apply (position_entries_set u _ _ st Hall) in Hst; [exact Hst |].
    intros st0 H0. rewrite (account_entries_no_positions u _ _ H0). constructor. }
  split; [exact Hset |].
  intros all_events.
  destruct (metrics_loop_all_rows
              (final_state (build_account_states account_values positions_by_market)
                 all_events)
              (adl_events (events_in_window all_events))) as (rows & Hrows & _).
  - intros adl Hin.
    destruct (adl_fill_outcome
                (build_account_states account_values positions_by_market)
                all_events adl Hin)
      as (d & Hd & [[_ Hrow] | [Hnull _]]); [exact Hrow |].
    destruct (entries_set_stored _ _ _ _ Hset Hnull) as [x Hx]. discriminate.
  - exists rows. exact Hrows.
Qed.

Lemma snapshot_without_null_entry_price_runs_witness :
  entries_set (build_account_states Scenario.account_values Scenario.positions_priced)
  /\ forall all_events,
       exists rows,
         replay (build_account_states Scenario.account_values Scenario.positions_priced)
           all_events = Ok rows.
Proof.
  apply snapshot_without_null_entry_price_runs.
  intros item Hin. vm_compute in Hin. destruct Hin as [<- | []].
  eexists. reflexivity.
Defined.

(** * Properties of the event loading *)

(** ** Fills *)

Lemma In_load_fill_block (block : list (string * RawDetails)) (e : Event) :
  In e (load_fill_block block) <->
  exists u d, In (u, d) block /\ is_spot (rd_coin d) = false /\ e = fill_event u d.
Proof.
  unfold load_fill_block. rewrite in_flat_map. split.
  - intros ([u d] & Hin & He). simpl in He.
    destruct (is_spot (rd_coin d)) eqn:Hs; [destruct He |].
    destruct He as [<- | []]. eauto.
  - intros (u & d & Hin & Hs & ->). exists (u, d). split; [exact Hin |].
    simpl. rewrite Hs. now left.
Qed.

Lemma In_load_fills (blocks : list (list (string * RawDetails))) (e : Event) :
  In e (load_fills blocks) <->
  exists block u d,
    In block blocks /\ In (u, d) block /\ is_spot (rd_coin d) = false
    /\ e = fill_event u d.
Proof.
  unfold load_fills. rewrite in_flat_map. split.
  - intros (block & Hb & He). apply In_load_fill_block in He as (u & d & H).
    exists block, u, d. tauto.
  - intros (block & u & d & Hb & H). exists block. split; [exact Hb |].
    apply In_load_fill_block. eauto.
Qed.





(** ** The whole script *)

Lemma In_load_misc_not_fill (timestamp_ms : string -> Z)
  (blocks : list (list MiscRecord)) (e : Event) (d : FillDetails) :
  In e (load_misc timestamp_ms blocks) -> body e <> fill d.
Proof.
  unfold load_misc. intros He.
  apply in_flat_map in He as (block & _ & He).
  apply in_flat_map in He as (ev & _ & He).
  unfold misc_events in He. apply in_app_or in He as [He | He].
  - destruct (mr_funding ev) as [deltas |]; [| destruct He].
    apply in_map_iff in He as (delta & <- & _). discriminate.
  - destruct (mr_ledger ev) as [ledger |]; [| destruct He].
    unfold ledger_events, user_events in He.
    destruct (lu_type ledger) as [ty |]; [| destruct He].
    destruct (String.eqb ty "deposit");
      [apply in_map_iff in He as (x & <- & _); discriminate |].
    destruct (String.eqb ty "withdraw");
      [apply in_map_iff in He as (x & <- & _); discriminate |].
    destruct (String.eqb ty "accountClassTransfer");
      [apply in_map_iff in He as (x & <- & _); discriminate | destruct He].
Qed.

(** X24: Every row of the script's output comes from a fill of the fill files
    that is not a spot fill, whose label is "Auto-Deleveraging" and whose
    time lies in the window: the row carries that fill's account, coin and
    time, and no row ever names a spot coin. *)
Theorem rows_come_from_perp_adl_fills
  (timestamp_ms : string -> Z)
  (account_values : list SnapshotAccount) (positions_by_market : list SnapshotMarket)
  (fill_blocks : list (list (string * RawDetails)))
  (misc_blocks : list (list MiscRecord)) (rows : list AdlRecord) :
  run_script timestamp_ms account_values positions_by_market fill_blocks misc_blocks
  = Ok rows ->
  forall r, In r rows ->
    is_spot (r_coin r) = false
    /\ exists block u details,
         In block fill_blocks /\ In (u, details) block
         /\ rd_dir details = Some "Auto-Deleveraging"
         /\ SNAPSHOT_TIME <= rd_time details /\ rd_time details <= ADL_END_TIME
         /\ r_user r = u /\ r_coin r = rd_coin details /\ r_time r = rd_time details.
Proof.
  unfold run_script. intros Hrun r Hr.
  destruct (metrics_loop_rows _ _ _ Hrun r Hr) as (adl & Hin & Hm).
  destruct (adl_metrics_row _ _ _ Hm)
    as (d & st & p & entry & Hd & _ & _ & _ & Hu & Hc & Ht & _).
  apply In_adl_events in Hin as [Hin (d' & Hd' & Hdir)].
  assert (d' = d) by congruence. subst d'.
  apply In_events_in_window in Hin as (Hin & Hlo & Hhi).
  unfold load_all_events in Hin. apply in_app_or in Hin as [Hin | Hin].
  - apply In_load_fills in Hin as (block & u & details & Hb & Hi & Hs & ->).
    simpl in Hd. injection Hd as <-. simpl in *.
    rewrite Hc. split; [exact Hs |].
    exists block, u, details. repeat split; auto.
    destruct (rd_dir details) as [label |]; simpl in Hdir; [congruence | discriminate].
  - exfalso. exact (In_load_misc_not_fill _ _ _ d Hin Hd).
Qed.

Lemma rows_come_from_perp_adl_fills_witness :
  is_spot (r_coin Scenario.expected_record) = false
  /\ exists block u details,
       In block Scenario.fill_blocks /\ In (u, details) block
       /\ rd_dir details = Some "Auto-Deleveraging"
       /\ SNAPSHOT_TIME <= rd_time details /\ rd_time details <= ADL_END_TIME
       /\ r_user Scenario.expected_record = u
       /\ r_coin Scenario.expected_record = rd_coin details
       /\ r_time Scenario.expected_record = rd_time details.
Proof.
  apply (rows_come_from_perp_adl_fills Scenario.timestamp_of Scenario.account_values
           Scenario.positions_priced Scenario.fill_blocks Scenario.misc_blocks
           [Scenario.expected_record]).
  - vm_compute. reflexivity.
  - now left.
Defined.

(** ** Ledger updates *)

Lemma user_events_not_listed (t : Z) (b : EventBody) (users : list string) (u : string) :
  ~ In u users ->
  forall e, In e (user_events t b users) -> user e <> u.
Proof.
  intros Hnot e He. unfold user_events in He.
  apply in_map_iff in He as (x & <- & Hx). simpl. congruence.
Qed.

Lemma filter_user_events_once (t : Z) (b : EventBody) (users : list string) (u : string) :
  List.NoDup users -> In u users ->
  List.filter (fun e => String.eqb (user e) u) (user_events t b users)
  = [{| time := t; user := u; body := b |}].
Proof.
  induction 1 as [| x rest Hx Hnd IH]; intros Hin; [destruct Hin |].
  simpl. destruct Hin as [-> | Hin].
  - rewrite String.eqb_refl. f_equal.
    assert (Hnone : forall l, ~ In u l ->
              List.filter (fun e => String.eqb (user e) u) (user_events t b l) = []).
    { induction l as [| y l IHl]; intros Hn; [reflexivity |]. simpl.
      destruct (String.eqb_spec y u) as [-> | _].
      - contradiction Hn. now left.
      - apply IHl. intros H. apply Hn. now right. }
    now apply Hnone.
  - destruct (String.eqb_spec x u) as [-> | _]; [contradiction | now apply IH].
Qed.

Lemma user_events_effect (s : ReplayState) (t : Z) (b : EventBody)
  (users : list string) (u : string) :
  List.NoDup users -> In u users ->
  account_value <$> working_states (replay_events s (user_events t b users)) !! u
  = Some (value_step (from_option account_value 0%float (working_states s !! u)) b).
Proof.
  intros Hnd Hin.
  destruct (working_states (replay_events s (user_events t b users)) !! u) as [st' |] eqn:E.
  - rewrite lookup_replay_events in E. apply fold_step_own_value in E.
    rewrite (filter_user_events_once t b users u Hnd Hin) in E. simpl in E.
    simpl. now rewrite E.
  - exfalso. apply eq_None_not_Some in E. apply E.
    rewrite lookup_replay_events. apply fold_step_own_is_Some.
    right. exists {| time := t; user := u; body := b |}. split; [| reflexivity].
    unfold user_events. apply in_map_iff. eauto.
Qed.

Lemma ledger_events_cases (t : Z) (l : LedgerUpdate) :
  ledger_events t l = []
  \/ exists b, ledger_events t l = user_events t b (lu_users l)
               /\ forall d, b <> fill d.
Proof.
  unfold ledger_events. destruct (lu_type l) as [ty |]; [| now left].
  destruct (String.eqb ty "deposit"); [right; eexists; split; [reflexivity | discriminate] |].
  destruct (String.eqb ty "withdraw"); [right; eexists; split; [reflexivity | discriminate] |].
  destruct (String.eqb ty "accountClassTransfer");
    [right; eexists; split; [reflexivity | discriminate] | now left].
Qed.

(** X25: What a ledger update does to the account values.  A deposit adds its
    amount to every listed account and a withdrawal subtracts it; a class
    transfer adds the amount when it goes to the perp account and adds its
    negation otherwise; an update of any other type changes nothing at all.
    An account that is not listed is never touched, and no ledger update
    changes a position or a last price. *)
Theorem ledger_update_moves_the_listed_accounts
  (s : ReplayState) (t : Z) (l : LedgerUpdate) (u : string) :
  last_prices (replay_events s (ledger_events t l)) = last_prices s
  /\ (forall c, stored_position (working_states (replay_events s (ledger_events t l))) u c
                = stored_position (working_states s) u c)
  /\ (~ In u (lu_users l) ->
      working_states (replay_events s (ledger_events t l)) !! u = working_states s !! u)
  /\ ((forall ty, lu_type l = Some ty ->
         ty <> "deposit" /\ ty <> "withdraw" /\ ty <> "accountClassTransfer") ->
      replay_events s (ledger_events t l) = s)
  /\ (List.NoDup (lu_users l) -> In u (lu_users l) ->
      let v := from_option account_value 0%float (working_states s !! u) in
      let x := default 0%float (lu_usdc l) in
      (lu_type l = Some "deposit" ->
       account_value <$> working_states (replay_events s (ledger_events t l)) !! u
       = Some (PrimFloat.add v x))
      /\ (lu_type l = Some "withdraw" ->
          account_value <$> working_states (replay_events s (ledger_events t l)) !! u
          = Some (PrimFloat.sub v x))
      /\ (lu_type l = Some "accountClassTransfer" ->
          account_value <$> working_states (replay_events s (ledger_events t l)) !! u
          = Some (PrimFloat.add v (if lu_toPerp l then x else PrimFloat.opp x)))).
Proof.
  assert (Hnofill : forall e d, In e (ledger_events t l) -> body e <> fill d).
  { intros e d He. destruct (ledger_events_cases t l) as [H | (b & H & Hb)];
      rewrite H in He; [destruct He |].
    unfold user_events in He. apply in_map_iff in He as (x & <- & _). apply Hb. }
  split; [| split; [| split; [| split]]].
  - apply map_eq. intros c. apply last_prices_no_fill.
    intros e He (d & Hd & _). exact (Hnofill e d He Hd).
  - intros c. apply stored_position_no_fill.
    intros e He [_ (d & Hd & _)]. exact (Hnofill e d He Hd).
  - intros Hnot. apply replay_events_other.
    destruct (ledger_events_cases t l) as [H | (b & H & _)]; rewrite H.
    + intros e [].
    + now apply user_events_not_listed.
  - intros Hother. unfold ledger_events.
    destruct (lu_type l) as [ty |]; [| reflexivity].
    destruct (Hother ty eq_refl) as (H1 & H2 & H3).
    destruct (String.eqb_spec ty "deposit"); [contradiction |].
    destruct (String.eqb_spec ty "withdraw"); [contradiction |].
    destruct (String.eqb_spec ty "accountClassTransfer"); [contradiction |].
    reflexivity.
  - intros Hnd Hin. cbv zeta. unfold ledger_events.
    split; [| split]; intros Hty; rewrite Hty; simpl;
      rewrite (user_events_effect s t _ (lu_users l) u Hnd Hin); reflexivity.
Qed.

Lemma ledger_update_moves_the_listed_accounts_witness :
  account_value
    <$> working_states
          (replay_events (initial_state Scenario.snapshot)
             (ledger_events 5
                {| lu_users := ["B"; "A"]; lu_type := Some "withdraw";
                   lu_usdc := Some 50%float; lu_toPerp := false |})) !! "B"
  = Some (PrimFloat.sub 250%float 50%float).
Proof.
  destruct (ledger_update_moves_the_listed_accounts (initial_state Scenario.snapshot) 5
              {| lu_users := ["B"; "A"]; lu_type := Some "withdraw";
                 lu_usdc := Some 50%float; lu_toPerp := false |} "B")
    as (_ & _ & _ & _ & Hlisted).
  destruct Hlisted as (_ & Hw & _).
  - repeat constructor; simpl; intuition discriminate.
  - simpl. tauto.
  - exact (Hw eq_refl).
Defined.

(** ** The time string of a misc record *)

Lemma string_app_assoc (x y z : string) : ((x ++ y) ++ z = x ++ y ++ z)%string.
Proof.
  induction x as [| c x IH]; [reflexivity |].
  change (String c ((x ++ y) ++ z) = String c (x ++ y ++ z))%string.
  now rewrite IH.
Qed.

Lemma prefix_char (a c : ascii) (s : string) :
  String.prefix (String a EmptyString) (String c s) = Ascii.eqb a c.
Proof.
  destruct (String.prefix (String a EmptyString) (String c s)) eqn:E.
  - apply prefix_spec in E as [post E]. injection E as -> _.
    symmetry. apply Ascii.eqb_refl.
  - destruct (Ascii.eqb_spec a c) as [-> | _]; [| reflexivity].
    assert (H : String.prefix (String c EmptyString) (String c s) = true)
      by (apply prefix_spec; exists s; reflexivity).
    congruence.
Qed.

Lemma contains_char_cons (a c : ascii) (s : string) :
  contains (String a EmptyString) (String c s)
  = Ascii.eqb a c || contains (String a EmptyString) s.
Proof.
  change (contains (String a EmptyString) (String c s))
    with (String.prefix (String a EmptyString) (String c s)
          || contains (String a EmptyString) s).
  now rewrite prefix_char.
Qed.

Lemma contains_char_app (a : ascii) (x y : string) :
  contains (String a EmptyString) (x ++ y)%string
  = contains (String a EmptyString) x || contains (String a EmptyString) y.
Proof.
  induction x as [| c x IH].
  - reflexivity.
  - change (String c x ++ y)%string with (String c (x ++ y)%string).
    rewrite !contains_char_cons, IH. apply orb_assoc.
Qed.

Lemma replace_from_cons (old new : string) (c : ascii) (s : string) :
  replace_from old new 0 (String c s)
  = if String.prefix old (String c s)
    then (new ++ replace_from old new (String.length old - 1) s)%string
    else String c (replace_from old new 0 s).
Proof. reflexivity. Qed.

Lemma replace_Z_suffix (p : string) :
  contains "Z" p = false ->
  replace_from "Z" "+00:00" 0 (p ++ "Z")%string = (p ++ "+00:00")%string.
Proof.
  induction p as [| c p IH]; intros H; [reflexivity |].
  rewrite contains_char_cons in H. apply orb_false_iff in H as [Hc Hp].
  change (String c p ++ "Z")%string with (String c (p ++ "Z")%string).
  rewrite replace_from_cons, prefix_char, Hc, IH by exact Hp. reflexivity.
Qed.

Lemma before_after_dot_app (base rest : string) :
  contains "." base = false ->
  before_dot (base ++ "." ++ rest)%string = base
  /\ after_dot (base ++ "." ++ rest)%string = Some rest.
Proof.
  induction base as [| c base IH]; intros H; [split; reflexivity |].
  rewrite contains_char_cons in H. apply orb_false_iff in H as [Hc Hb].
  destruct (IH Hb) as [IH1 IH2].
  rewrite Ascii.eqb_sym in Hc.
  change (String c base ++ "." ++ rest)%string
    with (String c (base ++ "." ++ rest)%string).
  simpl. rewrite Hc, IH1, IH2. auto.
Qed.

Lemma before_after_dot_absent (s : string) :
  contains "." s = false -> before_dot s = s /\ after_dot s = None.
Proof.
  induction s as [| c s IH]; intros H; [split; reflexivity |].
  rewrite contains_char_cons in H. apply orb_false_iff in H as [Hc Hs].
  destruct (IH Hs) as [IH1 IH2].
  rewrite Ascii.eqb_sym in Hc.
  simpl. rewrite Hc, IH1, IH2. auto.
Qed.

Lemma substring0_app_long (n : nat) (f tail : string) :
  (n <= String.length f)%nat ->
  String.substring 0 n (f ++ tail)%string = String.substring 0 n f.
Proof.
  revert f. induction n as [| n IH]; intros [| c f] H; simpl in H.
  - destruct tail; reflexivity.
  - reflexivity.
  - lia.
  - change (String c f ++ tail)%string with (String c (f ++ tail)%string).
    simpl. rewrite IH by lia. reflexivity.
Qed.

Lemma drop_chars_app (f tail : string) (k : nat) :
  drop_chars (String.length f + k) (f ++ tail)%string = drop_chars k tail.
Proof.
  induction f as [| c f IH]; [reflexivity |].
  change (String c f ++ tail)%string with (String c (f ++ tail)%string).
  simpl. exact IH.
Qed.

(** X26: The time string of a misc record, as it reaches the parser.  A UTC time
    with a nine-digit fraction keeps the first six digits of the fraction
    and gets the offset "+00:00" for its "Z"; a time without a fraction just
    gets the offset.  The cut is made at the ninth character after the dot,
    so a six-digit fraction loses the first three characters of the offset
    and is left with ":00". *)
Theorem misc_time_string_expects_nanoseconds (base : string) :
  contains "." base = false -> contains "Z" base = false ->
  misc_time_string (base ++ "Z")%string = (base ++ "+00:00")%string
  /\ (forall f9 : string,
        contains "." f9 = false -> contains "Z" f9 = false ->
        String.length f9 = 9%nat ->
        misc_time_string (base ++ "." ++ f9 ++ "Z")%string
        = (base ++ "." ++ String.substring 0 6 f9 ++ "+00:00")%string)
  /\ (forall f6 : string,
        contains "." f6 = false -> contains "Z" f6 = false ->
        String.length f6 = 6%nat ->
        misc_time_string (base ++ "." ++ f6 ++ "Z")%string
        = (base ++ "." ++ f6 ++ ":00")%string).
Proof.
  intros Hdot HZ.
  assert (Hfrac : forall f : string,
            contains "." f = false -> contains "Z" f = false ->
            misc_time_string (base ++ "." ++ f ++ "Z")%string
            = (base ++ "." ++ String.substring 0 6 (f ++ "+00:00")
               ++ drop_chars 9 (f ++ "+00:00"))%string).
  { intros f Hfd HfZ. unfold misc_time_string.
    replace (base ++ "." ++ f ++ "Z")%string with ((base ++ "." ++ f) ++ "Z")%string
      by (rewrite !string_app_assoc; reflexivity).
    rewrite replace_Z_suffix.
    2:{ rewrite !contains_char_app, HZ, HfZ. reflexivity. }
    replace ((base ++ "." ++ f) ++ "+00:00")%string
      with (base ++ "." ++ (f ++ "+00:00"))%string
      by (rewrite !string_app_assoc; reflexivity).
    destruct (before_after_dot_app base (f ++ "+00:00")%string Hdot) as [Hb Ha].
    rewrite Ha, Hb.
    assert (Hnd : contains "." (f ++ "+00:00")%string = false)
      by (rewrite contains_char_app, Hfd; reflexivity).
    destruct (before_after_dot_absent _ Hnd) as [-> _]. reflexivity. }
  split; [| split].
  - unfold misc_time_string. rewrite replace_Z_suffix by exact HZ.
    assert (Hnd : contains "." (base ++ "+00:00")%string = false)
      by (rewrite contains_char_app, Hdot; reflexivity).
    destruct (before_after_dot_absent _ Hnd) as [_ ->]. reflexivity.
  - intros f9 Hfd HfZ Hlen. rewrite (Hfrac f9 Hfd HfZ).
    rewrite substring0_app_long by lia.
    replace 9%nat with (String.length f9 + 0)%nat by lia.
    rewrite drop_chars_app. reflexivity.
  - intros f6 Hfd HfZ Hlen. rewrite (Hfrac f6 Hfd HfZ).
    rewrite substring0_app_long, substring0_all by lia.
    replace 9%nat with (String.length f6 + 3)%nat by lia.
    rewrite drop_chars_app. reflexivity.
Qed.

Lemma misc_time_string_expects_nanoseconds_witness :
  misc_time_string "2025-10-10T21:15:00Z" = "2025-10-10T21:15:00+00:00"
  /\ misc_time_string "2025-10-10T21:15:00.123456789Z"
     = "2025-10-10T21:15:00.123456+00:00"
  /\ misc_time_string "2025-10-10T21:15:00.123456Z" = "2025-10-10T21:15:00.123456:00".
Proof.
  destruct (misc_time_string_expects_nanoseconds "2025-10-10T21:15:00" eq_refl eq_refl)
    as (Hplain & Hnano & Hmicro).
  split; [exact Hplain |]. split.
  - exact (Hnano "123456789" eq_refl eq_refl eq_refl).
  - exact (Hmicro "123456" eq_refl eq_refl eq_refl).
Defined.
